(** * Release selection of eqemu-pack/server (main.go)

    A shallow embedding of [run], [githubReleases] and [errorCount] of
    main.go, and the properties of the release selector proved on it.

    Conventions of the embedding.
    - A Go [string] is a sequence of bytes: [string] of the Standard Library.
    - A [time.Time] is the number of nanoseconds since January 1, year 1,
      00:00:00 UTC, the instant [IsZero] tests for.  The instants that
      [time.Parse] returns lie in the years 0..9999, where the second counter
      of [time.Time] cannot wrap, so [Add] and [Before] are plain integer
      operations; [time.Duration] is a 64-bit count of nanoseconds and
      [Sub] saturates, which is written out in [Sub].
    - The slices decoded from JSON hold records (no nil element).
    - The outside world is a parameter of the development: the reading of
      the clock ([now], one reading for the run), the parser of the standard
      library ([Parse]), the two HTTP answers once decoded
      ([releasesResponse], [crashReports]) and whether a call of package os
      succeeds ([os_ok]).
    - What the program does to the outside world is a list of [event]s in
      program order: the lines it prints (by the statement that prints
      them and its arguments), the HTTP requests and the calls of package
      os (without their permission bits, constants of the source). *)

From Stdlib Require Import ZArith String Ascii List Lia Bool.
From stdpp Require Import base gmap strings list.

#[local] Set Warnings "-clear-no-such-hyp".

Open Scope string_scope.
Open Scope list_scope.
Open Scope Z_scope.

(** ** Data model *)

(** [type releaseJson struct]. *)
Record releaseJson : Type := mkRelease {
  Name : string;
  TagName : string;
  PublishedAt : string;
  Prerelease : bool;
  Body : string
}.

(** [type errorCountJson struct], local to [errorCount]. *)
Record errorCountJson : Type := mkReport {
  Id : Z;
  ServerName : string;
  ServerShortName : string;
  ServerVersion : string
}.

(** What [client.Get] followed by [json.NewDecoder(..).Decode] gives. *)
Inductive http_result (A : Type) : Type :=
| GetFailed
| DecodeFailed
| Decoded (payloads : A).
Arguments GetFailed {A}.
Arguments DecodeFailed {A}.
Arguments Decoded {A} payloads.

(** The errors [run] returns, by the message [fmt.Errorf] gives them. *)
Inductive error : Type :=
| ErrGetReleases        (* githubReleases: get releases: ... *)
| ErrDecodeReleases     (* githubReleases: decode releases: ... *)
| ErrParsePublishedAt   (* parse published at: ... *)
| ErrGetErrorCount      (* errorCount: get error count: ... *)
| ErrDecodeErrorCount   (* errorCount: decode error count: ... *)
| ErrNoReleases         (* no releases found *)
| ErrMkdir              (* mkdir: ... *)
| ErrWriteLatest        (* write latest.txt: ... *)
| ErrWriteStable.       (* write stable.txt: ... *)

(** ** Time *)

Module Time.

Definition t : Type := Z.

Definition Nanosecond : Z := 1.
Definition Second : Z := 1000000000 * Nanosecond.
Definition Minute : Z := 60 * Second.
Definition Hour : Z := 60 * Minute.

Definition minDuration : Z := - 2 ^ 63.
Definition maxDuration : Z := 2 ^ 63 - 1.

(** The zero value of [time.Time]. *)
Definition zero : t := 0.

Definition IsZero (x : t) : bool := x =? 0.
Definition Add (x : t) (d : Z) : t := x + d.
Definition Before (x u : t) : bool := x <? u.

(** [t.Sub(u)]: the difference, or the nearest duration when the
    difference does not fit 64 bits. *)
Definition Sub (x u : t) : Z :=
  let d := x - u in
  if (minDuration <=? d) && (d <=? maxDuration) then d
  else if Before x u then minDuration else maxDuration.

End Time.

(** ** Strings *)

(** [strings.HasPrefix]. *)
Fixpoint HasPrefix (s prefix : string) : bool :=
  match prefix with
  | EmptyString => true
  | String c prefix' =>
      match s with
      | EmptyString => false
      | String d s' => if Ascii.eqb c d then HasPrefix s' prefix' else false
      end
  end.

(** [strings.Contains]: [substr] starts at some index of [s]. *)
Fixpoint Contains (s substr : string) : bool :=
  HasPrefix s substr ||
  match s with
  | EmptyString => false
  | String _ s' => Contains s' substr
  end.

(** [strings.ReplaceAll(s, old, new)] for an [old] of one byte, as in the
    call [strings.ReplaceAll(release.TagName, "v", "")]: a byte below 128
    is never part of a longer UTF-8 sequence, so every occurrence is a
    byte equal to [old]. *)
Fixpoint ReplaceAll1 (s : string) (old : ascii) (new : string) : string :=
  match s with
  | EmptyString => EmptyString
  | String c s' =>
      if Ascii.eqb c old then String.append new (ReplaceAll1 s' old new)
      else String c (ReplaceAll1 s' old new)
  end.

(** ** Effects *)

Inductive os_call : Type :=
| MkdirAll (path : string)
| WriteFile (path : string) (data : string).

Inductive event : Type :=
| PrintSkipPrerelease (tag : string)
| PrintTooClose (tag : string) (last this : Time.t)
| PrintSetFallback (tag : string)
| PrintChecking (tag : string)
| PrintTooNew (tag : string)
| PrintNoFixes (tag : string)
| PrintHasErrors (releaseTag : string) (errorCount : Z)
| PrintUsingFallback
| PrintLatestUnstable (tag : string)
| PrintLatestStable (tag : string)
| PrintError (e : error)
| GetReleases
| GetCrashReports (version : string)
| Os (c : os_call).

(** ** errorCount *)

(** The loop of [errorCount]: [servers] is the map of the names seen. *)
Fixpoint countServers (servers : gmap string string) (count : Z)
    (payloads : list errorCountJson) : Z :=
  match payloads with
  | [] => count
  | payload :: rest =>
      match servers !! ServerName payload with
      | Some _ => countServers servers count rest
      | None =>
          countServers (<[ServerName payload := ServerName payload]> servers)
            (count + 1) rest
      end
  end.

Section Program.

(** The reading of the clock. *)
Variable now : Time.t.
(** [time.Parse(time.RFC3339, s)]; [None] is an error. *)
Variable Parse : string -> option Time.t.
(** The decoded answer of the releases API. *)
Variable releasesResponse : http_result (list releaseJson).
(** The decoded answer of the crash-report API for a version. *)
Variable crashReports : string -> http_result (list errorCountJson).
(** Whether a call of package os succeeds. *)
Variable os_ok : os_call -> bool.

Definition Since (x : Time.t) : Z := Time.Sub now x.

Definition errorCount (tag : string) : list event * (error + Z) :=
  ([GetCrashReports tag],
   match crashReports tag with
   | GetFailed => inl ErrGetErrorCount
   | DecodeFailed => inl ErrDecodeErrorCount
   | Decoded payloads => inr (countServers ∅ 0 payloads)
   end).

Definition githubReleases : list event * (error + list releaseJson) :=
  ([GetReleases],
   match releasesResponse with
   | GetFailed => inl ErrGetReleases
   | DecodeFailed => inl ErrDecodeReleases
   | Decoded payloads => inr ([] ++ payloads)
   end).

(** ** run *)

(** The variables [run] declares before its loop. *)
Record state : Type := mkState {
  latestUnstableRelease : option releaseJson;
  latestStableRelease : option releaseJson;
  fallbackRelease : option releaseJson;
  lastReleasePublishDate : Time.t
}.

Definition init : state := mkState None None None Time.zero.

Definition set_latestUnstableRelease (st : state) (r : releaseJson) : state :=
  mkState (Some r) (latestStableRelease st) (fallbackRelease st)
    (lastReleasePublishDate st).
Definition set_latestStableRelease (st : state) (r : releaseJson) : state :=
  mkState (latestUnstableRelease st) (Some r) (fallbackRelease st)
    (lastReleasePublishDate st).
Definition set_fallbackRelease (st : state) (r : releaseJson) : state :=
  mkState (latestUnstableRelease st) (latestStableRelease st) (Some r)
    (lastReleasePublishDate st).
Definition set_lastReleasePublishDate (st : state) (d : Time.t) : state :=
  mkState (latestUnstableRelease st) (latestStableRelease st)
    (fallbackRelease st) d.

(** How one pass through the body of the loop ends: [continue] (or the end
    of the body), [break], or [return] of an error; each with the
    variables as they are at that point. *)
Inductive flow : Type :=
| Continue (st : state)
| Break (st : state)
| Return (st : state) (e : error).

Definition is_nil {A : Type} (p : option A) : bool :=
  match p with None => true | Some _ => false end.

(** The body of [for _, release := range releases]. *)
Definition body (st : state) (release : releaseJson) : list event * flow :=
  if Prerelease release then
    ([PrintSkipPrerelease (TagName release)], Continue st)
  else
    let st :=
      if is_nil (latestUnstableRelease st)
      then set_latestUnstableRelease st release else st in
    match Parse (PublishedAt release) with
    | None => ([], Return st ErrParsePublishedAt)
    | Some publishedAt =>
        if negb (Time.IsZero (lastReleasePublishDate st)) &&
           Time.Before
             (Time.Add (lastReleasePublishDate st) (- 3 * 24 * Time.Hour))
             publishedAt
        then
          ([PrintTooClose (TagName release) (lastReleasePublishDate st)
              publishedAt],
           Continue (set_lastReleasePublishDate st publishedAt))
        else
          let '(out1, st) :=
            if is_nil (fallbackRelease st) &&
               (Since publishedAt >? 30 * 24 * Time.Hour)
            then ([PrintSetFallback (TagName release)],
                  set_fallbackRelease st release)
            else ([], st) in
          let out2 := out1 ++ [PrintChecking (TagName release)] in
          let st := set_lastReleasePublishDate st publishedAt in
          if Since publishedAt <? 7 * 24 * Time.Hour then
            (out2 ++ [PrintTooNew (TagName release)], Continue st)
          else if negb (Contains (Body release) "Fix") then
            (out2 ++ [PrintNoFixes (TagName release)], Continue st)
          else
            let releaseTag := ReplaceAll1 (TagName release) "v" "" in
            match errorCount releaseTag with
            | (out3, inl e) => (out2 ++ out3, Return st e)
            | (out3, inr count) =>
                if count >? 0 then
                  (out2 ++ out3 ++ [PrintHasErrors releaseTag count],
                   Continue st)
                else
                  (out2 ++ out3, Break (set_latestStableRelease st release))
            end
    end.

(** [for _, release := range releases { .. }] over a body [b]. *)
Fixpoint forRange (b : state -> releaseJson -> list event * flow)
    (st : state) (releases : list releaseJson) : list event * flow :=
  match releases with
  | [] => ([], Continue st)
  | release :: rest =>
      match b st release with
      | (out, Continue st') =>
          let '(out', f) := forRange b st' rest in (out ++ out', f)
      | (out, f) => (out, f)
      end
  end.

(** How [run] ends: it returns nil, returns an error, or dereferences
    the nil pointer [latestUnstableRelease]. *)
Inductive outcome : Type :=
| Done
| Failed (e : error)
| NilDereference.

(** [run] from the end of the loop on. *)
Definition afterLoop (st : state) : list event * outcome :=
  let after (stable : releaseJson) (out : list event) :=
    let out := out ++ [Os (MkdirAll "bin")] in
    if negb (os_ok (MkdirAll "bin")) then (out, Failed ErrMkdir)
    else
      match latestUnstableRelease st with
      | None => (out, NilDereference)
      | Some unstable =>
          let out := out ++ [PrintLatestUnstable (TagName unstable);
                             PrintLatestStable (TagName stable);
                             Os (WriteFile "bin/latest.txt" (TagName unstable))] in
          if negb (os_ok (WriteFile "bin/latest.txt" (TagName unstable)))
          then (out, Failed ErrWriteLatest)
          else
            let out :=
              out ++ [Os (WriteFile "bin/stable.txt" (TagName stable))] in
            if negb (os_ok (WriteFile "bin/stable.txt" (TagName stable)))
            then (out, Failed ErrWriteStable)
            else (out, Done)
      end in
  match latestStableRelease st with
  | Some stable => after stable []
  | None =>
      match fallbackRelease st with
      | None => ([], Failed ErrNoReleases)
      | Some fallback => after fallback [PrintUsingFallback]
      end
  end.

(** [run] from the list of releases on, over a loop body [b]. *)
Definition selectWith (b : state -> releaseJson -> list event * flow)
    (releases : list releaseJson) : list event * outcome :=
  match forRange b init releases with
  | (out, Return _ e) => (out, Failed e)
  | (out, Continue st) | (out, Break st) =>
      let '(out', o) := afterLoop st in (out ++ out', o)
  end.

Definition runWith (b : state -> releaseJson -> list event * flow)
    : list event * outcome :=
  match githubReleases with
  | (out, inl e) => (out, Failed e)
  | (out, inr releases) =>
      let '(out', o) := selectWith b releases in (out ++ out', o)
  end.

Definition run : list event * outcome := runWith body.

(** The body with the two assignments to [lastReleasePublishDate]
    replaced by one: once for every release that is not a prerelease,
    after its [PublishedAt] is parsed and the spacing test is evaluated
    on the previous date. *)
Definition bodySingleUpdate (st : state) (release : releaseJson)
    : list event * flow :=
  if Prerelease release then
    ([PrintSkipPrerelease (TagName release)], Continue st)
  else
    let st :=
      if is_nil (latestUnstableRelease st)
      then set_latestUnstableRelease st release else st in
    match Parse (PublishedAt release) with
    | None => ([], Return st ErrParsePublishedAt)
    | Some publishedAt =>
        let last := lastReleasePublishDate st in
        let tooClose :=
          negb (Time.IsZero last) &&
          Time.Before (Time.Add last (- 3 * 24 * Time.Hour)) publishedAt in
        let st := set_lastReleasePublishDate st publishedAt in
        if tooClose then
          ([PrintTooClose (TagName release) last publishedAt], Continue st)
        else
          let '(out1, st) :=
            if is_nil (fallbackRelease st) &&
               (Since publishedAt >? 30 * 24 * Time.Hour)
            then ([PrintSetFallback (TagName release)],
                  set_fallbackRelease st release)
            else ([], st) in
          let out2 := out1 ++ [PrintChecking (TagName release)] in
          if Since publishedAt <? 7 * 24 * Time.Hour then
            (out2 ++ [PrintTooNew (TagName release)], Continue st)
          else if negb (Contains (Body release) "Fix") then
            (out2 ++ [PrintNoFixes (TagName release)], Continue st)
          else
            let releaseTag := ReplaceAll1 (TagName release) "v" "" in
            match errorCount releaseTag with
            | (out3, inl e) => (out2 ++ out3, Return st e)
            | (out3, inr count) =>
                if count >? 0 then
                  (out2 ++ out3 ++ [PrintHasErrors releaseTag count],
                   Continue st)
                else
                  (out2 ++ out3, Break (set_latestStableRelease st release))
            end
    end.

Definition runSingleUpdate : list event * outcome :=
  runWith bodySingleUpdate.


End Program.

(** ** A parser for the examples

    [ParseUTC] gives the instant of a timestamp of the shape
    [2023-09-18T17:19:56Z] (the shape in the comment of [run]), as
    [time.Parse(time.RFC3339, s)] does on that shape; the other shapes of
    RFC 3339 (fractions of a second, numeric offsets) are refused here and
    left to the parameter [Parse] of the development. *)
Module RFC3339.

Definition digit (c : ascii) : option Z :=
  let n := Z.of_N (N_of_ascii c) in
  if (48 <=? n) && (n <=? 57) then Some (n - 48) else None.

Definition number (cs : list ascii) : option Z :=
  foldl (fun acc c => a ← acc; d ← digit c; Some (10 * a + d)) (Some 0) cs.

Definition isLeap (year : Z) : bool :=
  (year mod 4 =? 0) && (negb (year mod 100 =? 0) || (year mod 400 =? 0)).

(** Days of the year before the first of [month], in a common year. *)
Definition daysBefore (month : Z) : Z :=
  nth (Z.to_nat (month - 1))
    [0; 31; 59; 90; 120; 151; 181; 212; 243; 273; 304; 334] 0.

Definition daysIn (month year : Z) : Z :=
  if (month =? 2) && isLeap year then 29
  else nth (Z.to_nat (month - 1))
         [31; 28; 31; 30; 31; 30; 31; 31; 30; 31; 30; 31] 0.

(** Days from January 1, year 1 to the given date. *)
Definition daysSinceYear1 (year month day : Z) : Z :=
  let y := year - 1 in
  365 * y + y / 4 - y / 100 + y / 400
  + daysBefore month + (if (2 <? month) && isLeap year then 1 else 0)
  + (day - 1).

Definition Date (year month day hour min sec : Z) : Time.t :=
  ((daysSinceYear1 year month day * 24 + hour) * 60 + min) * 60 * Time.Second
  + sec * Time.Second.

Definition isByte (c : ascii) (s : string) : bool :=
  String.eqb (String c EmptyString) s.

Definition ParseUTC (s : string) : option Time.t :=
  match list_ascii_of_string s with
  | [y1; y2; y3; y4; c1; m1; m2; c2; d1; d2; cT;
     h1; h2; c3; n1; n2; c4; s1; s2; cZ] =>
      if isByte c1 "-" && isByte c2 "-" && isByte cT "T" && isByte c3 ":" && isByte c4 ":"
         && isByte cZ "Z"
      then
        year ← number [y1; y2; y3; y4];
        month ← number [m1; m2];
        day ← number [d1; d2];
        hour ← number [h1; h2];
        min ← number [n1; n2];
        sec ← number [s1; s2];
        if (1 <=? month) && (month <=? 12) && (1 <=? day)
           && (day <=? daysIn month year) && (hour <? 24) && (min <? 60)
           && (sec <? 60)
        then Some (Date year month day hour min sec)
        else None
      else None
  | _ => None
  end.

End RFC3339.

(** * Vocabulary of the properties *)

(** The set of the [server_name] values of the rows. *)
Definition serverNames (payloads : list errorCountJson) : gset string :=
  list_to_set (ServerName <$> payloads).

(** The variables of [run] where a pass through the body, or the loop,
    ends. *)
Definition stateOf (f : flow) : state :=
  match f with
  | Continue st | Break st | Return st _ => st
  end.

(** The versions asked of the crash-report API, in order. *)
Fixpoint queries (out : list event) : list string :=
  match out with
  | [] => []
  | GetCrashReports version :: out' => version :: queries out'
  | _ :: out' => queries out'
  end.

(** The calls of package os, in order. *)
Fixpoint osCalls (out : list event) : list os_call :=
  match out with
  | [] => []
  | Os c :: out' => c :: osCalls out'
  | _ :: out' => osCalls out'
  end.

(** Case analysis on the tests of the body. *)
Ltac body_simpl :=
  cbn [is_nil latestUnstableRelease latestStableRelease fallbackRelease
       lastReleasePublishDate set_latestUnstableRelease
       set_latestStableRelease set_fallbackRelease
       set_lastReleasePublishDate fst snd stateOf andb negb] in *.

Ltac body_cases :=
  unfold body, errorCount; body_simpl;
  repeat match goal with
    | |- context [if ?c then _ else _] => destruct c eqn:?; body_simpl
    | |- context [match ?p ?s with Some _ => _ | None => _ end] =>
        destruct (p s) eqn:?; body_simpl
    | |- context [match ?cr ?t with
                  | GetFailed => _ | DecodeFailed => _ | Decoded _ => _
                  end] =>
        destruct (cr t) eqn:?; body_simpl
    end.

(** Filter 1 lets the release through. *)
Definition nonPrerelease (release : releaseJson) : bool :=
  negb (Prerelease release).

(** While no release has been captured as unstable, nothing else has been
    set either. *)
Definition wellFormed (st : state) : Prop :=
  latestUnstableRelease st = None ->
  latestStableRelease st = None /\ fallbackRelease st = None /\
  lastReleasePublishDate st = Time.zero.

(** The test of the spacing filter. *)
Definition tooClose (last publishedAt : Time.t) : bool :=
  negb (Time.IsZero last) &&
  Time.Before (Time.Add last (- 3 * 24 * Time.Hour)) publishedAt.

(** The tag as [run] passes it to [errorCount]. *)
Definition normalized (release : releaseJson) : string :=
  ReplaceAll1 (TagName release) "v" "".

(** A string without its bytes [v]. *)
Definition withoutV (s : string) : string :=
  string_of_list_ascii
    (List.filter (fun c => negb (Ascii.eqb c "v")) (list_ascii_of_string s)).

(** Older than 30 days. *)
Definition old (now publishedAt : Time.t) : bool :=
  Since now publishedAt >? 30 * 24 * Time.Hour.

(** The releases of a feed that are not prereleases and that the spacing
    filter does not skip, with their dates, up to the first date that does
    not parse; [last] is the date of the release that is not a prerelease
    before them, or the zero time. *)
Fixpoint considered (Parse : string -> option Time.t) (last : Time.t)
    (releases : list releaseJson) : list (releaseJson * Time.t) :=
  match releases with
  | [] => []
  | release :: rest =>
      if Prerelease release then considered Parse last rest
      else
        match Parse (PublishedAt release) with
        | None => []
        | Some publishedAt =>
            if tooClose last publishedAt
            then considered Parse publishedAt rest
            else (release, publishedAt) :: considered Parse publishedAt rest
        end
  end.

(** The first of them that is older than 30 days. *)
Definition firstOld (now : Time.t) (Parse : string -> option Time.t)
    (last : Time.t) (releases : list releaseJson) : option releaseJson :=
  fst <$> find (fun p => old now (snd p)) (considered Parse last releases).

(** A release that fails one of the filters 1, 6, 7 and 8 without an error:
    it is a prerelease, or its date parses and it is younger than 7 days, or
    has no [Fix] in its body, or has crash reports. *)
Definition rejected (now : Time.t) (Parse : string -> option Time.t)
    (crashReports : string -> http_result (list errorCountJson))
    (release : releaseJson) : Prop :=
  Prerelease release = true \/
  exists publishedAt,
    Parse (PublishedAt release) = Some publishedAt /\
    ((Since now publishedAt <? 7 * 24 * Time.Hour) = true \/
     Contains (Body release) "Fix" = false \/
     exists count,
       snd (errorCount crashReports (normalized release)) = inr count /\
       0 < count).

(** ** Concrete feeds

    The clock reads 2023-10-30T00:00:00Z; the crash-report API has no row
    for any version; package os does not fail. *)

Definition today : Time.t := RFC3339.Date 2023 10 30 0 0 0.
Definition noReports : string -> http_result (list errorCountJson) :=
  fun _ => Decoded [].
Definition osFine : os_call -> bool := fun _ => true.

(** A prerelease whose date is not a timestamp. *)
Definition rCandidate : releaseJson :=
  mkRelease "22.31.0 RC1" "v22.31.0-rc1" "soon" true "Fix everything".
(** A prerelease of the day before. *)
Definition rNightly : releaseJson :=
  mkRelease "nightly" "nightly" "2023-10-29T03:00:00Z" true "".
(** 5 days old. *)
Definition rFresh : releaseJson :=
  mkRelease "22.30.0" "v22.30.0" "2023-10-25T00:00:00Z" false "Fix zone crash".
(** 29 days old, no fix. *)
Definition rA : releaseJson :=
  mkRelease "22.29.0" "v22.29.0" "2023-10-01T00:00:00Z" false "New features".
(** 31 days old, 2 days before [rA], no fix. *)
Definition rB : releaseJson :=
  mkRelease "22.28.1" "v22.28.1" "2023-09-29T00:00:00Z" false "Hot patch".
(** 40 days old, no fix. *)
Definition rC : releaseJson :=
  mkRelease "22.28.0" "v22.28.0" "2023-09-20T00:00:00Z" false "Spells rework".
(** 58 days old, with a fix. *)
Definition rStable : releaseJson :=
  mkRelease "22.27.0" "v22.27.0" "2023-09-01T12:00:00Z" false
    "Fix crash in zone".
(** 90 days old, with a fix, and a second [v] in its tag. *)
Definition rOlder : releaseJson :=
  mkRelease "22.26.0" "v22.26.0-dev" "2023-08-01T00:00:00Z" false "Fixes".
(** Not a prerelease, and a date that is not a timestamp. *)
Definition rBad : releaseJson :=
  mkRelease "22.25.0" "v22.25.0" "yesterday" false "Fix".

(** A prerelease, 35 days old. *)
Definition rOldCandidate : releaseJson :=
  mkRelease "22.28.0 RC1" "v22.28.0-rc1" "2023-09-25T00:00:00Z" true "Fix".
(** A crash-report API that cannot be reached. *)
Definition downReports : string -> http_result (list errorCountJson) :=
  fun _ => GetFailed.

(** [run] on a decoded feed, in this setting. *)
Definition runAt (releases : list releaseJson) : list event * outcome :=
  run today RFC3339.ParseUTC (Decoded releases) noReports osFine.

(** The date of the release parses and is more than 30 days back. *)
Definition ageOver30 (release : releaseJson) : bool :=
  match RFC3339.ParseUTC (PublishedAt release) with
  | Some publishedAt => old today publishedAt
  | None => false
  end.

(** ** Vocabulary of the further properties *)

(** A run of releases, none a prerelease, each with a date that parses and
    that the spacing filter finds too close to the date before it; [last]
    is the date before the first. *)
Fixpoint closeChain (Parse : string -> option Time.t) (last : Time.t)
    (releases : list releaseJson) : bool :=
  match releases with
  | [] => true
  | release :: rest =>
      negb (Prerelease release) &&
      match Parse (PublishedAt release) with
      | Some publishedAt =>
          tooClose last publishedAt && closeChain Parse publishedAt rest
      | None => false
      end
  end.

(** What the filters before [latestStableRelease = release] have checked:
    not a prerelease, a date that parses, not too close to [last], at least
    7 days old, [Fix] in the body, no row from the crash-report API. *)
Definition passesAll (now : Time.t) (Parse : string -> option Time.t)
    (crashReports : string -> http_result (list errorCountJson))
    (last : Time.t) (release : releaseJson) : Prop :=
  Prerelease release = false /\
  exists publishedAt,
    Parse (PublishedAt release) = Some publishedAt /\
    tooClose last publishedAt = false /\
    7 * 24 * Time.Hour <= now - publishedAt /\
    Contains (Body release) "Fix" = true /\
    crashReports (normalized release) = Decoded [].

(** The calls of package os that go with an outcome of [run]: all three
    when it returns nil or fails on bin/stable.txt, the first two when it
    fails on bin/latest.txt, the first when it fails on the directory, none
    on any other error. *)
Definition osCallsFor (os_ok : os_call -> bool) (o : outcome)
    (calls : list os_call) : Prop :=
  match o with
  | Done =>
      exists unstableTag stableTag,
        calls = [MkdirAll "bin"; WriteFile "bin/latest.txt" unstableTag;
                 WriteFile "bin/stable.txt" stableTag]
        /\ Forall (fun c => os_ok c = true) calls
  | Failed ErrWriteStable =>
      exists unstableTag stableTag,
        calls = [MkdirAll "bin"; WriteFile "bin/latest.txt" unstableTag;
                 WriteFile "bin/stable.txt" stableTag]
        /\ os_ok (WriteFile "bin/latest.txt" unstableTag) = true
        /\ os_ok (WriteFile "bin/stable.txt" stableTag) = false
  | Failed ErrWriteLatest =>
      exists unstableTag,
        calls = [MkdirAll "bin"; WriteFile "bin/latest.txt" unstableTag]
        /\ os_ok (WriteFile "bin/latest.txt" unstableTag) = false
  | Failed ErrMkdir =>
      calls = [MkdirAll "bin"] /\ os_ok (MkdirAll "bin") = false
  | Failed _ => calls = []
  | NilDereference => False
  end.

(** The line [run] prints when it skips a prerelease. *)
Definition printsPrerelease (e : event) : bool :=
  match e with
  | PrintSkipPrerelease _ => true
  | _ => false
  end.

(** * Properties *)

(** ** errorCount counts distinct server names *)

Lemma size_difference_fresh (n : string) (seen others : gset string) :
  n ∉ seen ->
  size (({[n]} ∪ others) ∖ seen) = S (size (others ∖ ({[n]} ∪ seen))).
Proof.
  intros Hnew.
  replace (({[n]} ∪ others) ∖ seen) with ({[n]} ∪ others ∖ ({[n]} ∪ seen))
    by (apply set_eq; intros x; destruct (decide (x = n)); set_solver).
  rewrite size_union by set_solver.
  rewrite size_singleton. reflexivity.
Qed.

Lemma countServers_spec (payloads : list errorCountJson) :
  forall (servers : gmap string string) (count : Z),
    countServers servers count payloads
    = count + Z.of_nat (size (serverNames payloads ∖ dom servers)).
Proof.
  unfold serverNames.
  induction payloads as [|payload rest IH]; intros servers count;
    cbn [countServers].
  - rewrite fmap_nil, list_to_set_nil.
    replace (∅ ∖ dom servers) with (∅ : gset string) by set_solver.
    rewrite size_empty. lia.
  - rewrite fmap_cons, list_to_set_cons.
    destruct (servers !! ServerName payload) as [v|] eqn:Hseen.
    + rewrite IH. do 3 f_equal.
      assert (ServerName payload ∈ dom servers)
        by (apply elem_of_dom; eauto).
      set_solver.
    + rewrite IH, dom_insert_L.
      rewrite size_difference_fresh by (apply not_elem_of_dom; done).
      lia.
Qed.

Lemma countServers_distinct (payloads : list errorCountJson) :
  countServers ∅ 0 payloads = Z.of_nat (size (serverNames payloads)).
Proof.
  rewrite countServers_spec, dom_empty_L.
  replace (serverNames payloads ∖ ∅) with (serverNames payloads) by set_solver.
  lia.
Qed.

(** C8: for the rows the crash-report API returns for a version,
    [errorCount] returns the number of distinct [server_name] values of the
    rows, without an error; a row whose [server_name] occurs in an earlier
    row adds nothing to the count; and no row at all gives 0. *)
Theorem errorCount_distinct_server_names
    (crashReports : string -> http_result (list errorCountJson))
    (tag : string) (rows : list errorCountJson) :
  crashReports tag = Decoded rows ->
  snd (errorCount crashReports tag)
  = inr (Z.of_nat (size (serverNames rows)))
  /\ Z.of_nat (size (serverNames rows))
     = Z.of_nat (length (remove_dups (ServerName <$> rows)))
  /\ (forall (before after : list errorCountJson) (row : errorCountJson),
        rows = before ++ row :: after ->
        ServerName row ∈ (ServerName <$> before) ->
        snd (errorCount crashReports tag)
        = inr (countServers ∅ 0 (before ++ after)))
  /\ (rows = [] -> snd (errorCount crashReports tag) = inr 0).
Proof.
  intros Hrows.
  assert (Hcount : snd (errorCount crashReports tag)
                   = inr (Z.of_nat (size (serverNames rows)))).
  { unfold errorCount. simpl. rewrite Hrows. f_equal.
    apply countServers_distinct. }
  repeat split.
  - exact Hcount.
  - f_equal. unfold serverNames.
    replace (list_to_set (ServerName <$> rows) : gset string)
      with (list_to_set (remove_dups (ServerName <$> rows)) : gset string).
    + apply size_list_to_set, NoDup_remove_dups.
    + apply set_eq; intros x.
      rewrite !elem_of_list_to_set. apply elem_of_remove_dups.
  - intros before after row -> Hdup.
    rewrite Hcount, countServers_distinct.
    apply (f_equal (fun s : gset string => inr (Z.of_nat (size s)))).
    unfold serverNames. rewrite !fmap_app, fmap_cons.
    rewrite !list_to_set_app_L, list_to_set_cons.
    assert (ServerName row ∈ (list_to_set (ServerName <$> before) : gset string))
      by (apply elem_of_list_to_set; done).
    set_solver.
  - intros ->. rewrite Hcount. reflexivity.
Qed.

Lemma errorCount_distinct_server_names_witness :
  let rows := [mkReport 1 "alpha" "a" "1.0"; mkReport 2 "beta" "b" "1.0";
               mkReport 3 "alpha" "a" "1.0"] in
  snd (errorCount (fun _ => Decoded rows) "1.0") = inr 2.
Proof.
  intros rows.
  destruct (errorCount_distinct_server_names (fun _ => Decoded rows) "1.0" rows
              eq_refl) as [H _].
  rewrite H. vm_compute. reflexivity.
Defined.

(** ** The loop *)

Lemma queries_app (out out' : list event) :
  queries (out ++ out') = queries out ++ queries out'.
Proof.
  induction out as [|e out IH]; [reflexivity|].
  destruct e; simpl; rewrite ?IH; reflexivity.
Qed.

Lemma osCalls_app (out out' : list event) :
  osCalls (out ++ out') = osCalls out ++ osCalls out'.
Proof.
  induction out as [|e out IH]; [reflexivity|].
  destruct e; simpl; rewrite ?IH; reflexivity.
Qed.

Section Loop.

Variable b : state -> releaseJson -> list event * flow.

Lemma forRange_cons_continue st release rest out st' :
  b st release = (out, Continue st') ->
  forRange b st (release :: rest)
  = (out ++ fst (forRange b st' rest), snd (forRange b st' rest)).
Proof.
  intros Hb. simpl. rewrite Hb.
  destruct (forRange b st' rest); reflexivity.
Qed.

Lemma forRange_cons_break st release rest out st' :
  b st release = (out, Break st') ->
  forRange b st (release :: rest) = (out, Break st').
Proof. intros Hb. simpl. rewrite Hb. reflexivity. Qed.

Lemma forRange_cons_return st release rest out st' e :
  b st release = (out, Return st' e) ->
  forRange b st (release :: rest) = (out, Return st' e).
Proof. intros Hb. simpl. rewrite Hb. reflexivity. Qed.

(** A loop over a list in two parts: the second part runs only when the
    first ran to its end. *)
Lemma forRange_app earlier later :
  forall st,
    forRange b st (earlier ++ later)
    = match forRange b st earlier with
      | (out, Continue st') =>
          (out ++ fst (forRange b st' later), snd (forRange b st' later))
      | (out, f) => (out, f)
      end.
Proof.
  induction earlier as [|release rest IH]; intros st.
  - simpl. destruct (forRange b st later); reflexivity.
  - rewrite <- app_comm_cons.
    destruct (b st release) as [out [st'|st'|st' e]] eqn:Hb.
    + rewrite !(forRange_cons_continue _ _ _ _ _ Hb), IH.
      destruct (forRange b st' rest) as [out' [st''|st''|st'' e]]; simpl;
        rewrite ?app_assoc; reflexivity.
    + rewrite !(forRange_cons_break _ _ _ _ _ Hb). reflexivity.
    + rewrite !(forRange_cons_return _ _ _ _ _ _ Hb). reflexivity.
Qed.

Lemma forRange_ext (b' : state -> releaseJson -> list event * flow) :
  (forall st release, b st release = b' st release) ->
  forall releases st, forRange b st releases = forRange b' st releases.
Proof.
  intros Hext releases.
  induction releases as [|release rest IH]; intros st; simpl.
  - reflexivity.
  - rewrite <- Hext.
    destruct (b st release) as [out [st'|st'|st' e]]; try reflexivity.
    rewrite IH. reflexivity.
Qed.

End Loop.

Section Selection.

Variable now : Time.t.
Variable Parse : string -> option Time.t.
Variable crashReports : string -> http_result (list errorCountJson).
Variable os_ok : os_call -> bool.

Local Abbreviation bodyP := (body now Parse crashReports).
Local Abbreviation bodySingleP :=
  (bodySingleUpdate now Parse crashReports).
Local Abbreviation scan := (forRange (body now Parse crashReports)).

Lemma bodySingleUpdate_body (st : state) (release : releaseJson) :
  bodySingleP st release = bodyP st release.
Proof.
  unfold bodySingleUpdate, body.
  destruct (Prerelease release); [reflexivity|].
  destruct (Parse (PublishedAt release)) as [publishedAt|]; [|reflexivity].
  destruct st as [unstable stable fallback last].
  destruct unstable, fallback; cbn;
    destruct (negb (Time.IsZero last) &&
              Time.Before (Time.Add last (- 3 * 24 * Time.Hour)) publishedAt);
    try reflexivity;
    destruct (Since now publishedAt >? 30 * 24 * Time.Hour); reflexivity.
Qed.

End Selection.

(** C4: with the two assignments to [lastReleasePublishDate] replaced by
    one assignment for every release that is not a prerelease, [run] prints,
    requests, writes and returns the same, for every answer of the releases
    API, every reading of the clock and every crash-report answer. *)
Theorem single_update_same_run
    (now : Time.t) (Parse : string -> option Time.t)
    (releasesResponse : http_result (list releaseJson))
    (crashReports : string -> http_result (list errorCountJson))
    (os_ok : os_call -> bool) :
  runSingleUpdate now Parse releasesResponse crashReports os_ok
  = run now Parse releasesResponse crashReports os_ok.
Proof.
  unfold runSingleUpdate, run, runWith, selectWith.
  destruct (githubReleases releasesResponse) as [out [e|releases]];
    [reflexivity|].
  rewrite (forRange_ext _ _ (bodySingleUpdate_body now Parse crashReports)).
  reflexivity.
Qed.

(** ** The unstable release *)

Section Unstable.

Variable now : Time.t.
Variable Parse : string -> option Time.t.
Variable crashReports : string -> http_result (list errorCountJson).
Variable os_ok : os_call -> bool.

Local Abbreviation bodyP := (body now Parse crashReports).
Local Abbreviation scan := (forRange (body now Parse crashReports)).

(** A prerelease leaves every variable as it is. *)
Lemma body_prerelease (st : state) (release : releaseJson) :
  Prerelease release = true ->
  bodyP st release = ([PrintSkipPrerelease (TagName release)], Continue st).
Proof. intros Hpre. unfold body. rewrite Hpre. reflexivity. Qed.

(** [latestUnstableRelease] after one pass through the body. *)
Lemma body_unstable (st : state) (release : releaseJson) :
  latestUnstableRelease (stateOf (snd (bodyP st release)))
  = if Prerelease release then latestUnstableRelease st
    else match latestUnstableRelease st with
         | Some u => Some u
         | None => Some release
         end.
Proof.
  destruct st as [[u|] stable fallback last]; body_cases; reflexivity.
Qed.

Lemma scan_unstable (releases : list releaseJson) :
  forall st,
    latestUnstableRelease (stateOf (snd (scan st releases)))
    = match latestUnstableRelease st with
      | Some u => Some u
      | None => find nonPrerelease releases
      end.
Proof.
  induction releases as [|release rest IH]; intros st.
  - simpl. destruct (latestUnstableRelease st); reflexivity.
  - pose proof (body_unstable st release) as Hbody.
    destruct (bodyP st release) as [out [st'|st'|st' e]] eqn:Hb.
    + rewrite (forRange_cons_continue _ _ _ _ _ _ Hb). simpl snd.
      rewrite IH. simpl in Hbody. rewrite Hbody.
      unfold find, nonPrerelease; fold (find nonPrerelease rest).
      destruct (Prerelease release), (latestUnstableRelease st); reflexivity.
    + rewrite (forRange_cons_break _ _ _ _ _ _ Hb). simpl in *.
      rewrite Hbody. unfold nonPrerelease.
      destruct (Prerelease release) eqn:Hpre; [|reflexivity].
      rewrite (body_prerelease _ _ Hpre) in Hb. discriminate.
    + rewrite (forRange_cons_return _ _ _ _ _ _ _ Hb). simpl in *.
      rewrite Hbody. unfold nonPrerelease.
      destruct (Prerelease release) eqn:Hpre; [|reflexivity].
      rewrite (body_prerelease _ _ Hpre) in Hb. discriminate.
Qed.

(** What [run] has done when it returns nil. *)
Lemma afterLoop_Done (st : state) (out : list event) :
  afterLoop os_ok st = (out, Done) ->
  exists unstable stable,
    latestUnstableRelease st = Some unstable /\
    (latestStableRelease st = Some stable \/
     latestStableRelease st = None /\ fallbackRelease st = Some stable) /\
    osCalls out = [MkdirAll "bin";
                   WriteFile "bin/latest.txt" (TagName unstable);
                   WriteFile "bin/stable.txt" (TagName stable)].
Proof.
  unfold afterLoop. intros Hafter.
  destruct (latestStableRelease st) as [stable|] eqn:Hstable;
    [|destruct (fallbackRelease st) as [stable|] eqn:Hfallback;
      [|discriminate]];
    (destruct (negb (os_ok (MkdirAll "bin"))); [discriminate|]);
    (destruct (latestUnstableRelease st) as [unstable|]; [|discriminate]);
    (destruct (negb (os_ok (WriteFile "bin/latest.txt" (TagName unstable))));
      [discriminate|]);
    (destruct (negb (os_ok (WriteFile "bin/stable.txt" (TagName stable))));
      [discriminate|]);
    injection Hafter as <-; exists unstable, stable; auto.
Qed.

Lemma run_Decoded (releases : list releaseJson) :
  run now Parse (Decoded releases) crashReports os_ok
  = (GetReleases :: fst (selectWith os_ok bodyP releases),
     snd (selectWith os_ok bodyP releases)).
Proof.
  unfold run, runWith, githubReleases. simpl.
  destruct (selectWith os_ok bodyP releases). reflexivity.
Qed.

Lemma selectWith_Done (releases : list releaseJson) :
  snd (selectWith os_ok bodyP releases) = Done ->
  exists out out' st,
    (scan init releases = (out, Continue st) \/
     scan init releases = (out, Break st)) /\
    afterLoop os_ok st = (out', Done) /\
    selectWith os_ok bodyP releases = (out ++ out', Done).
Proof.
  unfold selectWith.
  destruct (scan init releases) as [out [st|st|st e]];
    try (destruct (afterLoop os_ok st) as [out' o] eqn:Hafter);
    simpl; intros Ho; try discriminate; subst o;
    exists out, out', st; auto.
Qed.

(** No call of package os is made in the loop. *)
Lemma body_osCalls (st : state) (release : releaseJson) :
  osCalls (fst (bodyP st release)) = [].
Proof. body_cases; reflexivity. Qed.

Lemma scan_osCalls (releases : list releaseJson) :
  forall st, osCalls (fst (scan st releases)) = [].
Proof.
  induction releases as [|release rest IH]; intros st; [reflexivity|].
  pose proof (body_osCalls st release) as Hbody.
  destruct (bodyP st release) as [out [st'|st'|st' e]] eqn:Hb.
  - rewrite (forRange_cons_continue _ _ _ _ _ _ Hb). simpl fst.
    rewrite osCalls_app, IH. simpl in Hbody. rewrite Hbody. reflexivity.
  - rewrite (forRange_cons_break _ _ _ _ _ _ Hb). exact Hbody.
  - rewrite (forRange_cons_return _ _ _ _ _ _ _ Hb). exact Hbody.
Qed.

(** C1: at the end of the loop, however it is left, the unstable release
    is the first release of the feed that is not a prerelease, and none
    when there is no such release; once set, no pass through the body
    changes it; and when [run] returns nil, bin/latest.txt received the tag
    of that release. *)
Theorem unstable_is_first_non_prerelease (releases : list releaseJson) :
  latestUnstableRelease (stateOf (snd (scan init releases)))
  = find nonPrerelease releases
  /\ (forall st release u,
        latestUnstableRelease st = Some u ->
        latestUnstableRelease (stateOf (snd (bodyP st release))) = Some u)
  /\ ((forall release, In release releases -> Prerelease release = true) ->
      latestUnstableRelease (stateOf (snd (scan init releases))) = None)
  /\ (snd (run now Parse (Decoded releases) crashReports os_ok) = Done ->
      exists unstable stableTag,
        find nonPrerelease releases = Some unstable /\
        osCalls (fst (run now Parse (Decoded releases) crashReports os_ok))
        = [MkdirAll "bin";
           WriteFile "bin/latest.txt" (TagName unstable);
           WriteFile "bin/stable.txt" stableTag]).
Proof.
  pose proof (scan_unstable releases init) as Hscan. simpl in Hscan.
  repeat split.
  - exact Hscan.
  - intros st release u Hset. rewrite body_unstable, Hset.
    destruct (Prerelease release); reflexivity.
  - intros Hall. rewrite Hscan.
    destruct (find nonPrerelease releases) as [release|] eqn:Hfind;
      [|reflexivity].
    apply find_some in Hfind as [Hin Hnon]. unfold nonPrerelease in Hnon.
    rewrite (Hall _ Hin) in Hnon. discriminate.
  - rewrite run_Decoded. simpl. intros Hdone.
    destruct (selectWith_Done _ Hdone) as (out & out' & st & Hloop & Hafter & ->).
    destruct (afterLoop_Done _ _ Hafter) as (unstable & stable & Hu & _ & Hos).
    exists unstable, (TagName stable). split.
    + rewrite <- Hscan.
      destruct Hloop as [-> | ->]; simpl; exact Hu.
    + simpl. rewrite osCalls_app, Hos.
      pose proof (scan_osCalls releases init) as Hnone.
      destruct Hloop as [Hl | Hl]; rewrite Hl in Hnone; simpl in Hnone;
        rewrite Hnone; reflexivity.
Qed.

End Unstable.

(** ** Invariants of the loop *)

Lemma ReplaceAll1_withoutV (s : string) : ReplaceAll1 s "v" "" = withoutV s.
Proof.
  unfold withoutV. induction s as [|c s IH]; [reflexivity|].
  cbn [ReplaceAll1 list_ascii_of_string List.filter].
  destruct (Ascii.eqb c "v"); cbn [negb String.append string_of_list_ascii];
    rewrite IH; reflexivity.
Qed.

Section Invariants.

Variable now : Time.t.
Variable Parse : string -> option Time.t.
Variable crashReports : string -> http_result (list errorCountJson).
Variable os_ok : os_call -> bool.

Local Abbreviation bodyP := (body now Parse crashReports).
Local Abbreviation scan := (forRange (body now Parse crashReports)).

Lemma init_wellFormed : wellFormed init.
Proof. intros _. repeat split. Qed.

Lemma body_wellFormed (st : state) (release : releaseJson) :
  wellFormed st -> wellFormed (stateOf (snd (bodyP st release))).
Proof.
  unfold wellFormed. destruct st as [[u|] stable fallback last];
    body_cases; intros Hwf Hnone; try discriminate; auto.
Qed.

Lemma scan_wellFormed (releases : list releaseJson) :
  forall st, wellFormed st -> wellFormed (stateOf (snd (scan st releases))).
Proof.
  induction releases as [|release rest IH]; intros st Hwf; [exact Hwf|].
  pose proof (body_wellFormed st release Hwf) as Hbody.
  destruct (bodyP st release) as [out [st'|st'|st' e]] eqn:Hb.
  - rewrite (forRange_cons_continue _ _ _ _ _ _ Hb). apply IH, Hbody.
  - rewrite (forRange_cons_break _ _ _ _ _ _ Hb). exact Hbody.
  - rewrite (forRange_cons_return _ _ _ _ _ _ _ Hb). exact Hbody.
Qed.

(** [latestStableRelease] is assigned on [break] and nowhere else. *)
Lemma body_stable (st : state) (release : releaseJson) :
  match snd (bodyP st release) with
  | Continue st' | Return st' _ =>
      latestStableRelease st' = latestStableRelease st
  | Break st' => latestStableRelease st' = Some release
  end.
Proof.
  destruct st as [unstable stable fallback last]; body_cases; reflexivity.
Qed.

Lemma scan_Continue_stable (releases : list releaseJson) :
  forall st out st',
    scan st releases = (out, Continue st') ->
    latestStableRelease st' = latestStableRelease st.
Proof.
  induction releases as [|release rest IH]; intros st out st' Hscan.
  - injection Hscan as _ <-. reflexivity.
  - pose proof (body_stable st release) as Hbody.
    destruct (bodyP st release) as [out1 [st1|st1|st1 e]] eqn:Hb.
    + rewrite (forRange_cons_continue _ _ _ _ _ _ Hb) in Hscan.
      destruct (scan st1 rest) as [out2 f] eqn:Hrest. simpl in Hscan.
      injection Hscan as _ ->. rewrite (IH _ _ _ Hrest). exact Hbody.
    + rewrite (forRange_cons_break _ _ _ _ _ _ Hb) in Hscan. discriminate.
    + rewrite (forRange_cons_return _ _ _ _ _ _ _ Hb) in Hscan. discriminate.
Qed.

(** [run] does not reach the dereference of a nil [latestUnstableRelease]. *)
Lemma afterLoop_not_nil (st : state) :
  wellFormed st -> snd (afterLoop os_ok st) <> NilDereference.
Proof.
  unfold wellFormed, afterLoop. intros Hwf.
  destruct (latestUnstableRelease st) as [unstable|].
  - destruct (latestStableRelease st) as [stable|];
      [|destruct (fallbackRelease st) as [stable|]; [|discriminate]];
      (destruct (negb (os_ok (MkdirAll "bin"))); [discriminate|]);
      (destruct (negb (os_ok (WriteFile "bin/latest.txt" (TagName unstable))));
        [discriminate|]);
      (destruct (negb (os_ok (WriteFile "bin/stable.txt" (TagName stable))));
        discriminate).
  - destruct (Hwf eq_refl) as (-> & -> & _). discriminate.
Qed.

Lemma selectWith_not_nil (releases : list releaseJson) :
  snd (selectWith os_ok bodyP releases) <> NilDereference.
Proof.
  unfold selectWith.
  pose proof (scan_wellFormed releases init init_wellFormed) as Hwf.
  destruct (scan init releases) as [out [st|st|st e]]; simpl in Hwf;
    try discriminate;
    pose proof (afterLoop_not_nil st Hwf) as Hnot;
    destruct (afterLoop os_ok st) as [out' o]; exact Hnot.
Qed.

(** A feed of prereleases leaves the loop with the variables untouched. *)
Lemma scan_prereleases (releases : list releaseJson) (st : state) :
  (forall release, In release releases -> Prerelease release = true) ->
  scan st releases
  = (List.map (fun release => PrintSkipPrerelease (TagName release)) releases,
     Continue st).
Proof.
  induction releases as [|release rest IH]; intros Hall; [reflexivity|].
  rewrite (forRange_cons_continue _ _ _ _ _ _
             (body_prerelease now Parse crashReports st release
                (Hall release (or_introl eq_refl)))).
  rewrite IH by (intros r Hin; apply Hall; right; exact Hin).
  reflexivity.
Qed.

(** C9: on a feed without a release that is not a prerelease (empty, or
    prereleases only) [run] returns the error no releases found and calls
    nothing of package os; on every feed, [run] never dereferences a nil
    [latestUnstableRelease]; and when it returns nil the unstable release
    is set at the end of the loop. *)
Theorem no_release_no_result (releases : list releaseJson) :
  ((forall release, In release releases -> Prerelease release = true) ->
   run now Parse (Decoded releases) crashReports os_ok
   = (GetReleases ::
        List.map (fun release => PrintSkipPrerelease (TagName release))
          releases,
      Failed ErrNoReleases))
  /\ snd (run now Parse (Decoded releases) crashReports os_ok)
     <> NilDereference
  /\ (snd (run now Parse (Decoded releases) crashReports os_ok) = Done ->
      exists unstable,
        latestUnstableRelease (stateOf (snd (scan init releases)))
        = Some unstable /\ Prerelease unstable = false /\
        In unstable releases).
Proof.
  rewrite run_Decoded. simpl snd. repeat split.
  - intros Hall. unfold selectWith.
    rewrite (scan_prereleases releases init Hall). simpl.
    rewrite app_nil_r. reflexivity.
  - apply selectWith_not_nil.
  - intros Hdone.
    destruct (selectWith_Done _ _ _ _ _ Hdone)
      as (out & out' & st & Hloop & Hafter & _).
    destruct (afterLoop_Done _ _ _ Hafter) as (unstable & _ & Hu & _).
    pose proof (scan_unstable now Parse crashReports releases init) as Hscan.
    simpl in Hscan.
    assert (Hst : stateOf (snd (scan init releases)) = st)
      by (destruct Hloop as [-> | ->]; reflexivity).
    rewrite Hst in *. rewrite Hu in Hscan. symmetry in Hscan.
    apply find_some in Hscan as [Hin Hnon].
    exists unstable. repeat split; [exact Hu| |exact Hin].
    unfold nonPrerelease in Hnon. destruct (Prerelease unstable);
      [discriminate|reflexivity].
Qed.

End Invariants.

(** ** Early termination, the spacing filter and the oracle *)

Section Scan.

Variable now : Time.t.
Variable Parse : string -> option Time.t.
Variable crashReports : string -> http_result (list errorCountJson).
Variable os_ok : os_call -> bool.

Local Abbreviation bodyP := (body now Parse crashReports).
Local Abbreviation scan := (forRange (body now Parse crashReports)).
Local Abbreviation runOn :=
  (fun releases => run now Parse (Decoded releases) crashReports os_ok).

Lemma selectWith_scan_eq (releases releases' : list releaseJson) :
  scan init releases = scan init releases' ->
  selectWith os_ok bodyP releases = selectWith os_ok bodyP releases'.
Proof. unfold selectWith. intros ->. reflexivity. Qed.

(** C3: when the pass through the body for a release ends in [break],
    which is where [latestStableRelease] is set, the releases after it in
    the feed change nothing: the loop ends with the same variables and has
    printed and requested the same, and [run] as a whole prints, requests,
    writes and returns the same as on the feed cut after that release. *)
Theorem stable_ends_scan
    (earlier later : list releaseJson) (chosen : releaseJson)
    (out out' : list event) (st st' : state) :
  scan init earlier = (out, Continue st) ->
  bodyP st chosen = (out', Break st') ->
  latestStableRelease st = None
  /\ latestStableRelease st' = Some chosen
  /\ scan init (earlier ++ chosen :: later) = (out ++ out', Break st')
  /\ scan init (earlier ++ chosen :: later) = scan init (earlier ++ [chosen])
  /\ runOn (earlier ++ chosen :: later) = runOn (earlier ++ [chosen]).
Proof.
  intros Hearlier Hchosen.
  assert (Hcut : forall rest,
             scan init (earlier ++ chosen :: rest) = (out ++ out', Break st')).
  { intros rest. rewrite forRange_app, Hearlier.
    rewrite (forRange_cons_break _ _ _ _ _ _ Hchosen). reflexivity. }
  assert (Hsame : scan init (earlier ++ chosen :: later)
                  = scan init (earlier ++ [chosen]))
    by (rewrite !Hcut; reflexivity).
  repeat split.
  - apply (scan_Continue_stable now Parse crashReports _ _ _ _ Hearlier).
  - pose proof (body_stable now Parse crashReports st chosen) as Hbody.
    rewrite Hchosen in Hbody. exact Hbody.
  - apply Hcut.
  - exact Hsame.
  - rewrite !run_Decoded.
    rewrite (selectWith_scan_eq _ _ Hsame). reflexivity.
Qed.

(** C10: when the spacing filter skips a release that is not a
    prerelease, the pass through the body ends in [continue] with
    [lastReleasePublishDate] set to the date of the release,
    [fallbackRelease] and [latestStableRelease] as they were, and
    [latestUnstableRelease] as it was unless it was nil; in a state the loop
    can be in, nothing but [lastReleasePublishDate] changes.  The age of the
    release plays no part: skipped, it does not become the fallback. *)
Theorem spacing_skip_frame
    (st : state) (release : releaseJson) (publishedAt : Time.t) :
  Prerelease release = false ->
  Parse (PublishedAt release) = Some publishedAt ->
  tooClose (lastReleasePublishDate st) publishedAt = true ->
  exists st',
    bodyP st release
    = ([PrintTooClose (TagName release) (lastReleasePublishDate st)
          publishedAt], Continue st')
    /\ lastReleasePublishDate st' = publishedAt
    /\ fallbackRelease st' = fallbackRelease st
    /\ latestStableRelease st' = latestStableRelease st
    /\ latestUnstableRelease st'
       = match latestUnstableRelease st with
         | Some u => Some u
         | None => Some release
         end
    /\ (wellFormed st -> st' = set_lastReleasePublishDate st publishedAt)
    /\ (fallbackRelease st = None -> fallbackRelease st' = None).
Proof.
  intros Hpre Hparse Hclose. unfold tooClose in Hclose.
  destruct st as [[u|] stable fallback last]; body_simpl;
    unfold body; rewrite Hpre, Hparse; body_simpl; rewrite Hclose;
    eexists; repeat split; auto.
  intros Hwf. destruct (Hwf eq_refl) as (_ & _ & Hzero). body_simpl.
  rewrite Hzero in Hclose. discriminate.
Qed.

Lemma body_queries (st : state) (release : releaseJson) :
  queries (fst (bodyP st release)) = [] \/
  queries (fst (bodyP st release)) = [normalized release].
Proof.
  unfold normalized. body_cases; rewrite ?queries_app; simpl; auto.
Qed.

Lemma scan_queries (releases : list releaseJson) :
  forall st,
    sublist (queries (fst (scan st releases))) (normalized <$> releases).
Proof.
  induction releases as [|release rest IH]; intros st; [constructor|].
  rewrite fmap_cons.
  pose proof (body_queries st release) as Hbody.
  destruct (bodyP st release) as [out [st'|st'|st' e]] eqn:Hb;
    [rewrite (forRange_cons_continue _ _ _ _ _ _ Hb)
    |rewrite (forRange_cons_break _ _ _ _ _ _ Hb)
    |rewrite (forRange_cons_return _ _ _ _ _ _ _ Hb)];
    simpl fst in *; rewrite ?queries_app;
    destruct Hbody as [-> | ->]; simpl;
    try (apply sublist_skip, IH); try (apply sublist_skip, sublist_nil_l);
    try (apply sublist_cons, IH); apply sublist_cons, sublist_nil_l.
Qed.

(** C7: the version [run] passes to [errorCount] is the tag of the release
    without its bytes [v]; a pass through the body asks for that version or
    for none, and asks once when the release passes the filters before the
    oracle (not a prerelease, date parsed, not skipped by the spacing
    filter, at least 7 days old, [Fix] in the body); over the loop, the
    versions asked are, in order, those of some of the releases, each
    release asked at most once. *)
Theorem oracle_asked_normalized_tag
    (st : state) (release : releaseJson) (releases : list releaseJson) :
  normalized release = withoutV (TagName release)
  /\ (queries (fst (bodyP st release)) = [] \/
      queries (fst (bodyP st release)) = [normalized release])
  /\ (forall publishedAt,
        Prerelease release = false ->
        Parse (PublishedAt release) = Some publishedAt ->
        tooClose (lastReleasePublishDate st) publishedAt = false ->
        (Since now publishedAt <? 7 * 24 * Time.Hour) = false ->
        Contains (Body release) "Fix" = true ->
        queries (fst (bodyP st release)) = [normalized release]
        /\ fst (errorCount crashReports (normalized release))
           = [GetCrashReports (normalized release)])
  /\ sublist (queries (fst (scan st releases))) (normalized <$> releases).
Proof.
  split; [apply ReplaceAll1_withoutV|].
  split; [apply body_queries|].
  split; [|apply scan_queries].
  intros publishedAt Hpre Hparse Hclose Hage Hfix.
  split; [|reflexivity].
  unfold tooClose in *. unfold normalized.
  destruct st as [[u|] stable fallback last]; body_simpl;
    unfold body; rewrite Hpre, Hparse; body_simpl;
    rewrite Hclose, Hage, Hfix;
    body_cases; rewrite ?queries_app; reflexivity.
Qed.

End Scan.

(** ** Errors and the fallback *)

Section Fallback.

Variable now : Time.t.
Variable Parse : string -> option Time.t.
Variable crashReports : string -> http_result (list errorCountJson).
Variable os_ok : os_call -> bool.

Local Abbreviation bodyP := (body now Parse crashReports).
Local Abbreviation scan := (forRange (body now Parse crashReports)).
Local Abbreviation runOn :=
  (fun releases => run now Parse (Decoded releases) crashReports os_ok).

(** C5 (amended): when the loop reaches a release that is not a prerelease
    and whose [PublishedAt] does not parse, [run] returns the error parse
    published at, and has called nothing of package os. *)
Theorem malformed_timestamp_aborts
    (earlier later : list releaseJson) (bad : releaseJson)
    (out : list event) (st : state) :
  scan init earlier = (out, Continue st) ->
  Prerelease bad = false ->
  Parse (PublishedAt bad) = None ->
  runOn (earlier ++ bad :: later)
  = (GetReleases :: out, Failed ErrParsePublishedAt)
  /\ osCalls (fst (runOn (earlier ++ bad :: later))) = [].
Proof.
  intros Hearlier Hpre Hparse.
  assert (Hbad : exists st', bodyP st bad = ([], Return st' ErrParsePublishedAt)).
  { unfold body. rewrite Hpre, Hparse. eauto. }
  destruct Hbad as [st' Hbad].
  assert (Hrun : runOn (earlier ++ bad :: later)
                 = (GetReleases :: out, Failed ErrParsePublishedAt)).
  { rewrite run_Decoded. unfold selectWith.
    rewrite forRange_app, Hearlier.
    rewrite (forRange_cons_return _ _ _ _ _ _ _ Hbad).
    rewrite app_nil_r. reflexivity. }
  split; [exact Hrun|].
  rewrite Hrun. simpl.
  pose proof (scan_osCalls now Parse crashReports earlier init) as Hnone.
  rewrite Hearlier in Hnone. exact Hnone.
Qed.

Lemma Since_small (publishedAt d : Z) :
  now - publishedAt = d ->
  Time.minDuration <= d <= Time.maxDuration ->
  Since now publishedAt = d.
Proof.
  unfold Since, Time.Sub. intros -> [Hlo Hhi].
  apply Z.leb_le in Hlo, Hhi. rewrite Hlo, Hhi. reflexivity.
Qed.

(** C6 (amended): on a feed of one release that is not a prerelease, is 5
    days old and has [Fix] in its body, the loop captures the release as
    unstable, the freshness filter skips it, no fallback is captured, and
    [run] returns the error no releases found: it writes neither file. *)
Theorem fresh_single_release_fails
    (release : releaseJson) (publishedAt : Time.t) :
  Prerelease release = false ->
  Parse (PublishedAt release) = Some publishedAt ->
  now - publishedAt = 5 * 24 * Time.Hour ->
  Contains (Body release) "Fix" = true ->
  scan init [release]
  = ([PrintChecking (TagName release); PrintTooNew (TagName release)],
     Continue (mkState (Some release) None None publishedAt))
  /\ runOn [release]
     = ([GetReleases; PrintChecking (TagName release);
         PrintTooNew (TagName release)], Failed ErrNoReleases)
  /\ osCalls (fst (runOn [release])) = [].
Proof.
  intros Hpre Hparse Hage Hfix.
  assert (Hsince : Since now publishedAt = 5 * 24 * Time.Hour)
    by (apply Since_small; [exact Hage | vm_compute; split; discriminate]).
  assert (Hscan : scan init [release]
                  = ([PrintChecking (TagName release);
                      PrintTooNew (TagName release)],
                     Continue (mkState (Some release) None None publishedAt))).
  { simpl. unfold body. rewrite Hpre, Hparse. body_simpl.
    rewrite Hsince. reflexivity. }
  assert (Hrun : runOn [release]
                 = ([GetReleases; PrintChecking (TagName release);
                     PrintTooNew (TagName release)], Failed ErrNoReleases)).
  { rewrite run_Decoded. unfold selectWith. rewrite Hscan. reflexivity. }
  repeat split; [exact Hscan | exact Hrun |].
  rewrite Hrun. reflexivity.
Qed.

(** [fallbackRelease] is assigned once. *)
Lemma body_fallback_kept (st : state) (release fallback : releaseJson) :
  fallbackRelease st = Some fallback ->
  fallbackRelease (stateOf (snd (bodyP st release))) = Some fallback.
Proof.
  destruct st as [unstable stable [f|] last]; intros Hset;
    [|discriminate]; body_cases; exact Hset.
Qed.

(** A pass through the body for a release no filter of 1, 6, 7, 8
    lets through. *)
Lemma body_rejected (st : state) (release : releaseJson) :
  rejected now Parse crashReports release ->
  exists out st',
    bodyP st release = (out, Continue st')
    /\ fallbackRelease st'
       = match fallbackRelease st with
         | Some f => Some f
         | None => firstOld now Parse (lastReleasePublishDate st) [release]
         end
    /\ (forall rest,
          considered Parse (lastReleasePublishDate st) (release :: rest)
          = considered Parse (lastReleasePublishDate st) [release]
            ++ considered Parse (lastReleasePublishDate st') rest).
Proof.
  intros [Hpre | (publishedAt & Hparse & Hrej)].
  - rewrite (body_prerelease _ _ _ _ _ Hpre).
    unfold firstOld. cbn [considered]. rewrite Hpre.
    do 2 eexists; repeat split. destruct (fallbackRelease st); reflexivity.
  - destruct (Prerelease release) eqn:Hpre.
    + rewrite (body_prerelease _ _ _ _ _ Hpre).
      unfold firstOld. cbn [considered]. rewrite Hpre.
      do 2 eexists; repeat split. destruct (fallbackRelease st); reflexivity.
    + unfold firstOld, rejected, old in *.
      cbn [considered]. rewrite Hpre, Hparse. unfold tooClose in *.
      assert (Herr : forall e,
                 match crashReports (normalized release) with
                 | GetFailed => inl ErrGetErrorCount
                 | DecodeFailed => inl ErrDecodeErrorCount
                 | Decoded payloads => inr (countServers ∅ 0 payloads)
                 end = inl e ->
                 (Since now publishedAt <? 7 * 24 * Time.Hour) = false ->
                 negb (Contains (Body release) "Fix") = false -> False).
      { intros e He Hage Hfix.
        destruct Hrej as [Hnew | [Hnofix | (count & Hcount & _)]];
          [congruence | rewrite Hnofix in Hfix; discriminate |].
        unfold errorCount in Hcount. simpl in Hcount. congruence. }
      assert (Hok : forall count,
                 match crashReports (normalized release) with
                 | GetFailed => inl ErrGetErrorCount
                 | DecodeFailed => inl ErrDecodeErrorCount
                 | Decoded payloads => inr (countServers ∅ 0 payloads)
                 end = inr count ->
                 (Since now publishedAt <? 7 * 24 * Time.Hour) = false ->
                 negb (Contains (Body release) "Fix") = false ->
                 (count >? 0) = true).
      { intros count Hc Hage Hfix.
        destruct Hrej as [Hnew | [Hnofix | (count' & Hcount & Hpos)]];
          [congruence | rewrite Hnofix in Hfix; discriminate |].
        unfold errorCount in Hcount. simpl in Hcount.
        rewrite Hc in Hcount. injection Hcount as ->. lia. }
      unfold normalized in *.
      destruct st as [[u|] stable [f|] last]; body_simpl;
        unfold body, errorCount; rewrite Hpre, Hparse; body_simpl;
        destruct (negb (Time.IsZero last) &&
                  Time.Before (Time.Add last (- 3 * 24 * Time.Hour))
                    publishedAt) eqn:Hclose;
        body_simpl; cbn [find fmap option_fmap option_map app fst snd];
        try (do 2 eexists; repeat split; intros; body_simpl; reflexivity);
        destruct (Since now publishedAt >? 30 * 24 * Time.Hour) eqn:Hold;
        destruct (Since now publishedAt <? 7 * 24 * Time.Hour) eqn:Hage;
        body_simpl; cbn [find fmap option_fmap option_map app fst snd];
        try (do 2 eexists; repeat split; intros; body_simpl; reflexivity);
        destruct (negb (Contains (Body release) "Fix")) eqn:Hfix;
        body_simpl;
        try (do 2 eexists; repeat split; intros; body_simpl; reflexivity);
        (destruct (match crashReports (ReplaceAll1 (TagName release) "v" "")
                  with
                  | GetFailed => inl ErrGetErrorCount
                  | DecodeFailed => inl ErrDecodeErrorCount
                  | Decoded payloads => inr (countServers ∅ 0 payloads)
                  end) as [e|count] eqn:Hquery;
        [exfalso; exact (Herr e eq_refl eq_refl eq_refl)
        |rewrite (Hok count eq_refl eq_refl eq_refl);
         do 2 eexists; repeat split; intros; body_simpl; reflexivity]).
Qed.

Lemma find_app_first {A : Type} (P : A -> bool) (l1 l2 : list A) :
  find P (l1 ++ l2)
  = match find P l1 with
    | Some x => Some x
    | None => find P l2
    end.
Proof.
  induction l1 as [|x l1 IH]; [reflexivity|].
  simpl. destruct (P x); [reflexivity | exact IH].
Qed.

Lemma considered_In (releases : list releaseJson) :
  forall last release publishedAt,
    In (release, publishedAt) (considered Parse last releases) ->
    In release releases /\ Parse (PublishedAt release) = Some publishedAt.
Proof.
  induction releases as [|r rest IH]; intros last release publishedAt Hin;
    [destruct Hin|].
  cbn [considered] in Hin.
  destruct (Prerelease r).
  - destruct (IH _ _ _ Hin). split; [right|]; assumption.
  - destruct (Parse (PublishedAt r)) as [t|] eqn:Hparse; [|destruct Hin].
    destruct (tooClose last t).
    + destruct (IH _ _ _ Hin). split; [right|]; assumption.
    + destruct Hin as [[= <- <-] | Hin].
      * split; [left; reflexivity | exact Hparse].
      * destruct (IH _ _ _ Hin). split; [right|]; assumption.
Qed.

Lemma scan_rejected (releases : list releaseJson) :
  forall st,
    (forall release,
        In release releases -> rejected now Parse crashReports release) ->
    exists out st',
      scan st releases = (out, Continue st')
      /\ fallbackRelease st'
         = match fallbackRelease st with
           | Some f => Some f
           | None => firstOld now Parse (lastReleasePublishDate st) releases
           end.
Proof.
  induction releases as [|release rest IH]; intros st Hall.
  - exists [], st. split; [reflexivity|].
    destruct (fallbackRelease st); reflexivity.
  - destruct (body_rejected st release (Hall _ (or_introl eq_refl)))
      as (out1 & st1 & Hb & Hfallback & Hsplit).
    destruct (IH st1 (fun r Hin => Hall r (or_intror Hin)))
      as (out2 & st2 & Hrest & Hfallback2).
    exists (out1 ++ out2), st2. split.
    + rewrite (forRange_cons_continue _ _ _ _ _ _ Hb), Hrest. reflexivity.
    + rewrite Hfallback2, Hfallback.
      destruct (fallbackRelease st) as [f|]; [reflexivity|].
      unfold firstOld in *. rewrite (Hsplit rest), find_app_first.
      destruct (find (fun p => old now (snd p))
                  (considered Parse (lastReleasePublishDate st) [release]));
        reflexivity.
Qed.

(** C2 (amended): on a feed in which every release is a prerelease or has
    a date that parses and fails the freshness filter, the changelog filter
    or, without an error of the oracle, the oracle, the loop runs to its end
    with no stable release and with, as fallback, the first release older
    than 30 days among those that are not prereleases and that the spacing
    filter does not skip; [fallbackRelease] once set is not overwritten;
    with such a release, and package os not failing, [run] writes its tag
    to bin/stable.txt; without one, and so when no release is older than
    30 days, [run] returns the error no releases found. *)
Theorem fallback_when_none_stable (releases : list releaseJson) :
  (forall release,
      In release releases -> rejected now Parse crashReports release) ->
  exists out st,
    scan init releases = (out, Continue st)
    /\ latestStableRelease st = None
    /\ fallbackRelease st = firstOld now Parse Time.zero releases
    /\ (forall st0 release fallback,
          fallbackRelease st0 = Some fallback ->
          fallbackRelease (stateOf (snd (bodyP st0 release))) = Some fallback)
    /\ match firstOld now Parse Time.zero releases with
       | Some fallback =>
           (forall c, os_ok c = true) ->
           exists unstable,
             find nonPrerelease releases = Some unstable
             /\ snd (runOn releases) = Done
             /\ osCalls (fst (runOn releases))
                = [MkdirAll "bin";
                   WriteFile "bin/latest.txt" (TagName unstable);
                   WriteFile "bin/stable.txt" (TagName fallback)]
       | None => runOn releases = (GetReleases :: out, Failed ErrNoReleases)
       end
    /\ ((forall release publishedAt,
            In release releases ->
            Parse (PublishedAt release) = Some publishedAt ->
            old now publishedAt = false) ->
        runOn releases = (GetReleases :: out, Failed ErrNoReleases)).
Proof.
  intros Hall.
  destruct (scan_rejected releases init Hall) as (out & st & Hscan & Hfallback).
  simpl in Hfallback.
  pose proof (scan_Continue_stable now Parse crashReports _ _ _ _ Hscan)
    as Hstable. simpl in Hstable.
  assert (Hnone : firstOld now Parse Time.zero releases = None ->
                  runOn releases = (GetReleases :: out, Failed ErrNoReleases)).
  { intros Hno. rewrite run_Decoded. unfold selectWith. rewrite Hscan.
    unfold afterLoop. rewrite Hstable, Hfallback, Hno. simpl.
    rewrite app_nil_r. reflexivity. }
  exists out, st. repeat split; try assumption.
  - apply body_fallback_kept.
  - destruct (firstOld now Parse Time.zero releases) as [fallback|] eqn:Hfirst;
      [|apply Hnone; reflexivity].
    intros Hos.
    pose proof (scan_wellFormed now Parse crashReports releases init
                  (init_wellFormed)) as Hwf.
    pose proof (scan_unstable now Parse crashReports releases init) as Hu.
    rewrite Hscan in Hwf, Hu. simpl in Hwf, Hu.
    destruct (latestUnstableRelease st) as [unstable|] eqn:Hunstable.
    + exists unstable. split; [symmetry; exact Hu|].
      rewrite run_Decoded. unfold selectWith. rewrite Hscan.
      unfold afterLoop. rewrite Hstable, Hfallback, Hunstable, !Hos. simpl.
      split; [reflexivity|].
      rewrite osCalls_app.
      pose proof (scan_osCalls now Parse crashReports releases init) as Hno.
      rewrite Hscan in Hno. simpl in Hno. rewrite Hno. reflexivity.
    + destruct (Hwf Hunstable) as (_ & Hcontra & _). congruence.
  - intros Hyoung. apply Hnone. unfold firstOld.
    destruct (find (fun p => old now (snd p))
                (considered Parse Time.zero releases)) as [[r t]|] eqn:Hfind;
      [|reflexivity].
    apply find_some in Hfind as [Hin Hold].
    apply considered_In in Hin as [Hin Hparse].
    simpl in Hold. rewrite (Hyoung _ _ Hin Hparse) in Hold. discriminate.
Qed.

End Fallback.

(** ** Witnesses and counterexamples *)

Lemma unstable_is_first_non_prerelease_witness :
  exists stableTag,
    osCalls (fst (runAt [rCandidate; rFresh; rStable]))
    = [MkdirAll "bin"; WriteFile "bin/latest.txt" "v22.30.0";
       WriteFile "bin/stable.txt" stableTag].
Proof.
  destruct (unstable_is_first_non_prerelease today RFC3339.ParseUTC noReports
              osFine [rCandidate; rFresh; rStable])
    as (_ & _ & _ & Hdone).
  destruct (Hdone eq_refl) as (unstable & stableTag & Hfirst & Hos).
  exists stableTag. injection Hfirst as <-. exact Hos.
Defined.

Lemma no_release_no_result_witness :
  runAt [rCandidate; rNightly]
  = ([GetReleases; PrintSkipPrerelease "v22.31.0-rc1";
      PrintSkipPrerelease "nightly"], Failed ErrNoReleases).
Proof.
  apply (no_release_no_result today RFC3339.ParseUTC noReports osFine
           [rCandidate; rNightly]).
  intros release [<- | [<- | []]]; reflexivity.
Defined.

Lemma stable_ends_scan_witness :
  runAt ([rA] ++ rStable :: [rOlder; rBad]) = runAt ([rA] ++ [rStable]).
Proof.
  eapply (stable_ends_scan today RFC3339.ParseUTC noReports osFine
            [rA] [rOlder; rBad] rStable); reflexivity.
Defined.

Lemma spacing_skip_frame_witness :
  let st := mkState (Some rA) None None (RFC3339.Date 2023 10 1 0 0 0) in
  ageOver30 rB = true /\
  exists st',
    body today RFC3339.ParseUTC noReports st rB
    = ([PrintTooClose "v22.28.1" (RFC3339.Date 2023 10 1 0 0 0)
          (RFC3339.Date 2023 9 29 0 0 0)], Continue st')
    /\ fallbackRelease st' = None.
Proof.
  intros st. split; [reflexivity|].
  destruct (spacing_skip_frame today RFC3339.ParseUTC noReports st rB
              (RFC3339.Date 2023 9 29 0 0 0) eq_refl eq_refl eq_refl)
    as (st' & Hbody & _ & Hfallback & _).
  exists st'. split; [exact Hbody | exact Hfallback].
Defined.

Lemma oracle_asked_normalized_tag_witness :
  queries (fst (body today RFC3339.ParseUTC noReports init rOlder))
  = ["22.26.0-de"].
Proof.
  destruct (oracle_asked_normalized_tag today RFC3339.ParseUTC noReports
              init rOlder [])
    as (_ & _ & Hasked & _).
  apply (Hasked (RFC3339.Date 2023 8 1 0 0 0)); reflexivity.
Defined.

Lemma malformed_timestamp_aborts_witness :
  runAt ([rA] ++ rBad :: [rStable])
  = ([GetReleases; PrintChecking "v22.29.0"; PrintNoFixes "v22.29.0"],
     Failed ErrParsePublishedAt).
Proof.
  unfold runAt.
  refine (proj1 (malformed_timestamp_aborts today RFC3339.ParseUTC noReports
                   osFine [rA] [rStable] rBad _ _ _ _ _)); reflexivity.
Defined.

(** C5, as stated, fails on a feed whose release with the malformed date
    is a prerelease, and on a feed where that release comes after the one
    chosen as stable: [run] returns nil and has written both files. *)
Lemma malformed_timestamp_not_always_fatal :
  (In rCandidate [rCandidate; rStable]
   /\ RFC3339.ParseUTC (PublishedAt rCandidate) = None
   /\ runAt [rCandidate; rStable]
      = ([GetReleases; PrintSkipPrerelease "v22.31.0-rc1";
          PrintSetFallback "v22.27.0"; PrintChecking "v22.27.0";
          GetCrashReports "22.27.0"; Os (MkdirAll "bin");
          PrintLatestUnstable "v22.27.0"; PrintLatestStable "v22.27.0";
          Os (WriteFile "bin/latest.txt" "v22.27.0");
          Os (WriteFile "bin/stable.txt" "v22.27.0")], Done))
  /\ (In rBad [rStable; rBad]
      /\ RFC3339.ParseUTC (PublishedAt rBad) = None
      /\ runAt [rStable; rBad]
         = ([GetReleases; PrintSetFallback "v22.27.0";
             PrintChecking "v22.27.0"; GetCrashReports "22.27.0";
             Os (MkdirAll "bin"); PrintLatestUnstable "v22.27.0";
             PrintLatestStable "v22.27.0";
             Os (WriteFile "bin/latest.txt" "v22.27.0");
             Os (WriteFile "bin/stable.txt" "v22.27.0")], Done)).
Proof.
  repeat split; try (vm_compute; reflexivity).
  - left. reflexivity.
  - right. left. reflexivity.
Qed.

Lemma fresh_single_release_fails_witness :
  runAt [rFresh]
  = ([GetReleases; PrintChecking "v22.30.0"; PrintTooNew "v22.30.0"],
     Failed ErrNoReleases).
Proof.
  unfold runAt.
  refine (proj1 (proj2 (fresh_single_release_fails today RFC3339.ParseUTC
                          noReports osFine rFresh
                          (RFC3339.Date 2023 10 25 0 0 0) _ _ _ _)));
    reflexivity.
Defined.

(** C6, as stated, fails: on the feed of one release, 5 days old, with
    [Fix] in its body, [run] returns the error and bin/latest.txt is not
    written, with the tag of the release or anything else. *)
Lemma fresh_single_release_writes_nothing :
  Prerelease rFresh = false
  /\ today - RFC3339.Date 2023 10 25 0 0 0 = 5 * 24 * Time.Hour
  /\ RFC3339.ParseUTC (PublishedAt rFresh)
     = Some (RFC3339.Date 2023 10 25 0 0 0)
  /\ Contains (Body rFresh) "Fix" = true
  /\ snd (runAt [rFresh]) = Failed ErrNoReleases
  /\ forall data,
       ~ In (Os (WriteFile "bin/latest.txt" data)) (fst (runAt [rFresh])).
Proof.
  repeat split; try (vm_compute; reflexivity).
  intros data. vm_compute.
  intros [H | [H | [H | []]]]; discriminate H.
Qed.

Lemma fallback_when_none_stable_witness :
  osCalls (fst (runAt [rA; rB; rC]))
  = [MkdirAll "bin"; WriteFile "bin/latest.txt" "v22.29.0";
     WriteFile "bin/stable.txt" "v22.28.0"].
Proof.
  assert (Hall : forall release,
             In release [rA; rB; rC] ->
             rejected today RFC3339.ParseUTC noReports release).
  { intros release [<- | [<- | [<- | []]]]; right;
      eexists; (split; [reflexivity|]); right; left; reflexivity. }
  destruct (fallback_when_none_stable today RFC3339.ParseUTC noReports osFine
              [rA; rB; rC] Hall)
    as (out & st & _ & _ & _ & _ & Hfallback & _).
  replace (firstOld today RFC3339.ParseUTC Time.zero [rA; rB; rC])
    with (Some rC) in Hfallback by (vm_compute; reflexivity).
  destruct (Hfallback (fun _ => eq_refl)) as (unstable & Hfirst & _ & Hos).
  injection Hfirst as <-. exact Hos.
Defined.

(** C2, as stated, fails: no release of the feed has [Fix] in its body,
    the first release older than 30 days is [rB], which the spacing filter
    skips, and bin/stable.txt receives the tag of [rC].  Likewise a
    prerelease older than 30 days is not the fallback; and where the oracle
    or the parser fails, [run] returns that error, neither the fallback
    nor the error no releases found. *)
Lemma fallback_is_not_first_old_release :
  ((forall release,
       In release [rA; rB; rC] -> Contains (Body release) "Fix" = false)
   /\ find ageOver30 [rA; rB; rC] = Some rB
   /\ TagName rB = "v22.28.1"
   /\ runAt [rA; rB; rC]
      = ([GetReleases; PrintChecking "v22.29.0"; PrintNoFixes "v22.29.0";
          PrintTooClose "v22.28.1" (RFC3339.Date 2023 10 1 0 0 0)
            (RFC3339.Date 2023 9 29 0 0 0);
          PrintSetFallback "v22.28.0"; PrintChecking "v22.28.0";
          PrintNoFixes "v22.28.0"; PrintUsingFallback;
          Os (MkdirAll "bin"); PrintLatestUnstable "v22.29.0";
          PrintLatestStable "v22.28.0";
          Os (WriteFile "bin/latest.txt" "v22.29.0");
          Os (WriteFile "bin/stable.txt" "v22.28.0")], Done))
  /\ (find ageOver30 [rOldCandidate; rC] = Some rOldCandidate
      /\ osCalls (fst (runAt [rOldCandidate; rC]))
         = [MkdirAll "bin"; WriteFile "bin/latest.txt" "v22.28.0";
            WriteFile "bin/stable.txt" "v22.28.0"])
  /\ (find ageOver30 [rStable] = Some rStable
      /\ run today RFC3339.ParseUTC (Decoded [rStable]) downReports osFine
         = ([GetReleases; PrintSetFallback "v22.27.0";
             PrintChecking "v22.27.0"; GetCrashReports "22.27.0"],
            Failed ErrGetErrorCount))
  /\ (find ageOver30 [rBad] = None
      /\ runAt [rBad] = ([GetReleases], Failed ErrParsePublishedAt)).
Proof.
  repeat split; try (vm_compute; reflexivity).
  intros release [<- | [<- | [<- | []]]]; reflexivity.
Qed.

(** * Further properties of the code *)

(** ** strings.HasPrefix, strings.Contains, strings.ReplaceAll *)

Lemma HasPrefix_append (prefix : string) :
  forall s,
    HasPrefix s prefix = true <-> exists rest, s = String.append prefix rest.
Proof.
  induction prefix as [|c prefix IH]; intros s.
  - split; [intros _; exists s; reflexivity | destruct s; reflexivity].
  - destruct s as [|d s]; cbn [HasPrefix String.append].
    + split; [discriminate | intros [rest Hrest]; discriminate].
    + destruct (Ascii.eqb_spec c d) as [<- | Hne].
      * split.
        -- intros Hpre. apply IH in Hpre as [rest ->]. exists rest. reflexivity.
        -- intros [rest Hrest]. injection Hrest as ->.
           apply IH. exists rest. reflexivity.
      * split; [discriminate|].
        intros [rest Hrest]. injection Hrest as <- _. contradiction.
Qed.

Lemma Contains_cons (c : ascii) (s substr : string) :
  Contains (String c s) substr
  = HasPrefix (String c s) substr || Contains s substr.
Proof. reflexivity. Qed.

Lemma HasPrefix_Contains (s substr : string) :
  HasPrefix s substr = true -> Contains s substr = true.
Proof. destruct s; intros Hpre; unfold Contains; rewrite Hpre; reflexivity. Qed.

(** [strings.Contains(s, substr)] holds exactly when [substr] occurs in [s]:
    [s] is some bytes, then [substr], then some bytes.  The comparison is
    byte for byte, so it is sensitive to case. *)
Theorem Contains_occurrence (s substr : string) :
  Contains s substr = true
  <-> exists before after,
        s = String.append before (String.append substr after).
Proof.
  split.
  - induction s as [|c s IH]; cbn [Contains]; rewrite orb_true_iff.
    + intros [Hpre | Hfalse]; [|discriminate].
      apply HasPrefix_append in Hpre as [rest Hrest].
      exists EmptyString, rest. exact Hrest.
    + intros [Hpre | Hlater].
      * apply HasPrefix_append in Hpre as [rest Hrest].
        exists EmptyString, rest. exact Hrest.
      * destruct (IH Hlater) as (before & after & ->).
        exists (String c before), after. reflexivity.
  - intros (before & after & ->).
    induction before as [|c before IH].
    + cbn [String.append]. apply HasPrefix_Contains.
      apply HasPrefix_append. exists after. reflexivity.
    + change (String.append (String c before) (String.append substr after))
        with (String c (String.append before (String.append substr after))).
      rewrite Contains_cons, IH. apply orb_true_r.
Qed.

Lemma Contains_occurrence_witness :
  Contains "Hotfix: Fix zone crash" "Fix" = true
  /\ Contains "hotfix for zones" "Fix" = false.
Proof.
  split.
  - apply (Contains_occurrence "Hotfix: Fix zone crash" "Fix").
    exists "Hotfix: ", " zone crash". reflexivity.
  - reflexivity.
Defined.

Lemma String_append_nil_l (s : string) : String.append "" s = s.
Proof. reflexivity. Qed.

(** [strings.ReplaceAll(s, old, "")] for a byte [old]: the result is [s]
    without the bytes equal to [old], the other bytes in their order; it
    has no byte [old] left, is no longer than [s], and doing it again
    changes nothing. *)
Theorem ReplaceAll1_removes (s : string) (old : ascii) :
  list_ascii_of_string (ReplaceAll1 s old "")
  = List.filter (fun c => negb (Ascii.eqb c old)) (list_ascii_of_string s)
  /\ ~ In old (list_ascii_of_string (ReplaceAll1 s old ""))
  /\ (String.length (ReplaceAll1 s old "") <= String.length s)%nat
  /\ ReplaceAll1 (ReplaceAll1 s old "") old "" = ReplaceAll1 s old "".
Proof.
  assert (Hfilter : forall s',
             list_ascii_of_string (ReplaceAll1 s' old "")
             = List.filter (fun c => negb (Ascii.eqb c old))
                 (list_ascii_of_string s')).
  { induction s' as [|c s' IH]; [reflexivity|].
    cbn [ReplaceAll1 list_ascii_of_string List.filter].
    destruct (Ascii.eqb c old);
      rewrite ?String_append_nil_l; cbn [negb list_ascii_of_string];
      rewrite IH; reflexivity. }
  split; [apply Hfilter|]. split; [|split].
  - rewrite Hfilter. intros Hin. apply filter_In in Hin as [_ Hne].
    rewrite Ascii.eqb_refl in Hne. discriminate.
  - induction s as [|c s IH]; [reflexivity|].
    cbn [ReplaceAll1]. destruct (Ascii.eqb c old);
      rewrite ?String_append_nil_l; cbn [String.length]; lia.
  - induction s as [|c s IH]; [reflexivity|].
    cbn [ReplaceAll1]. destruct (Ascii.eqb c old) eqn:Hc;
      rewrite ?String_append_nil_l; cbn [ReplaceAll1];
      rewrite ?Hc, ?String_append_nil_l, IH; reflexivity.
Qed.

(** ** time.Since against the thresholds *)

(** The saturation of [time.Since] plays no part in the filters: the
    fallback test and the freshness test give what the exact difference
    of the two instants gives, however far apart they are. *)
Theorem Since_thresholds_exact (now publishedAt : Time.t) :
  (Since now publishedAt >? 30 * 24 * Time.Hour)
  = (now - publishedAt >? 30 * 24 * Time.Hour)
  /\ (Since now publishedAt <? 7 * 24 * Time.Hour)
     = (now - publishedAt <? 7 * 24 * Time.Hour)
  /\ Time.minDuration <= Since now publishedAt <= Time.maxDuration.
Proof.
  unfold Since, Time.Sub, Time.Before.
  change Time.minDuration with (-9223372036854775808).
  change Time.maxDuration with 9223372036854775807.
  change (30 * 24 * Time.Hour) with 2592000000000000.
  change (7 * 24 * Time.Hour) with 604800000000000.
  cbv zeta.
  destruct (Z.leb_spec (-9223372036854775808) (now - publishedAt));
    destruct (Z.leb_spec (now - publishedAt) 9223372036854775807);
    destruct (Z.ltb_spec now publishedAt); cbn [andb];
    repeat split; try lia;
    repeat match goal with
      | |- context [?a >? ?b] => destruct (Z.gtb_spec a b)
      | |- context [?a <? ?b] => destruct (Z.ltb_spec a b)
      end; try reflexivity; lia.
Qed.

(** ** errorCount as a gate *)

Lemma countServers_bounds (payloads : list errorCountJson) :
  forall (servers : gmap string string) (count : Z),
    count <= countServers servers count payloads
    <= count + Z.of_nat (length payloads).
Proof.
  induction payloads as [|payload rest IH]; intros servers count;
    cbn [countServers length].
  - lia.
  - destruct (servers !! ServerName payload).
    + specialize (IH servers count). lia.
    + specialize (IH (<[ServerName payload := ServerName payload]> servers)
                    (count + 1)). lia.
Qed.

Lemma countServers_zero (payloads : list errorCountJson) :
  (countServers ∅ 0 payloads >? 0) = false <-> payloads = [].
Proof.
  split.
  - destruct payloads as [|payload rest]; [reflexivity|].
    cbn [countServers]. rewrite lookup_empty.
    pose proof (countServers_bounds rest
                  (<[ServerName payload := ServerName payload]> ∅) (0 + 1)).
    intros Hgt.
    destruct (Z.gtb_spec
                (countServers (<[ServerName payload := ServerName payload]> ∅)
                   (0 + 1) rest) 0); [discriminate | lia].
  - intros ->. reflexivity.
Qed.

(** The count of [errorCount] lies between 0 and the number of rows the
    API returned, and the test [errorCount > 0] of [run] fails exactly when
    the API returned no row: one row is enough to turn a release down. *)
Theorem errorCount_zero_iff_no_row
    (crashReports : string -> http_result (list errorCountJson))
    (tag : string) (rows : list errorCountJson) :
  crashReports tag = Decoded rows ->
  exists count,
    errorCount crashReports tag = ([GetCrashReports tag], inr count)
    /\ 0 <= count <= Z.of_nat (length rows)
    /\ ((count >? 0) = false <-> rows = []).
Proof.
  intros Hrows. exists (countServers ∅ 0 rows).
  unfold errorCount. rewrite Hrows. split; [reflexivity|].
  split; [apply (countServers_bounds rows ∅ 0) | apply countServers_zero].
Qed.

Lemma errorCount_zero_iff_no_row_witness :
  exists count,
    errorCount (fun _ => Decoded [mkReport 7 "alpha" "a" "22.27.0"]) "22.27.0"
    = ([GetCrashReports "22.27.0"], inr count)
    /\ (count >? 0) = true.
Proof.
  destruct (errorCount_zero_iff_no_row
              (fun _ => Decoded [mkReport 7 "alpha" "a" "22.27.0"]) "22.27.0"
              [mkReport 7 "alpha" "a" "22.27.0"] eq_refl)
    as (count & Hcount & _ & Hzero).
  exists count. split; [exact Hcount|].
  destruct (count >? 0) eqn:Hgt; [reflexivity|].
  destruct Hzero as [Hnil _]. discriminate (Hnil eq_refl).
Defined.

(** The count of [errorCount] does not depend on the order of the rows. *)
Theorem countServers_permutation (rows rows' : list errorCountJson) :
  rows ≡ₚ rows' -> countServers ∅ 0 rows = countServers ∅ 0 rows'.
Proof.
  intros Hperm. rewrite !countServers_distinct. unfold serverNames.
  do 2 f_equal. apply list_to_set_perm_L. rewrite Hperm. reflexivity.
Qed.

Lemma countServers_permutation_witness :
  countServers ∅ 0 [mkReport 1 "alpha" "a" "1"; mkReport 2 "beta" "b" "1";
                    mkReport 3 "alpha" "a" "1"]
  = countServers ∅ 0 [mkReport 2 "beta" "b" "1"; mkReport 1 "alpha" "a" "1";
                      mkReport 3 "alpha" "a" "1"].
Proof. apply countServers_permutation. apply perm_swap. Defined.

(** ** The release chosen as stable *)

Lemma Since_exact (now publishedAt : Time.t) :
  (Since now publishedAt >? 30 * 24 * Time.Hour)
  = (now - publishedAt >? 30 * 24 * Time.Hour)
  /\ (Since now publishedAt <? 7 * 24 * Time.Hour)
     = (now - publishedAt <? 7 * 24 * Time.Hour).
Proof.
  unfold Since, Time.Sub, Time.Before.
  change Time.minDuration with (-9223372036854775808).
  change Time.maxDuration with 9223372036854775807.
  change (30 * 24 * Time.Hour) with 2592000000000000.
  change (7 * 24 * Time.Hour) with 604800000000000.
  cbv zeta.
  destruct (Z.leb_spec (-9223372036854775808) (now - publishedAt));
    destruct (Z.leb_spec (now - publishedAt) 9223372036854775807);
    destruct (Z.ltb_spec now publishedAt); cbn [andb];
    repeat split;
    repeat match goal with
      | |- context [?a >? ?b] => destruct (Z.gtb_spec a b)
      | |- context [?a <? ?b] => destruct (Z.ltb_spec a b)
      end; try reflexivity; lia.
Qed.

Section Chosen.

Variable now : Time.t.
Variable Parse : string -> option Time.t.
Variable crashReports : string -> http_result (list errorCountJson).
Variable os_ok : os_call -> bool.

Local Abbreviation bodyP := (body now Parse crashReports).
Local Abbreviation scan := (forRange (body now Parse crashReports)).
Local Abbreviation runOn :=
  (fun releases => run now Parse (Decoded releases) crashReports os_ok).

(** Where a loop left by [break] was left. *)
Lemma scan_Break_inv (releases : list releaseJson) :
  forall st out st',
    scan st releases = (out, Break st') ->
    exists earlier chosen later out1 st1 out2,
      releases = earlier ++ chosen :: later
      /\ scan st earlier = (out1, Continue st1)
      /\ bodyP st1 chosen = (out2, Break st')
      /\ out = out1 ++ out2.
Proof.
  induction releases as [|release rest IH]; intros st out st' Hscan;
    [discriminate|].
  destruct (bodyP st release) as [o [s1|s1|s1 e]] eqn:Hb.
  - rewrite (forRange_cons_continue _ _ _ _ _ _ Hb) in Hscan.
    destruct (scan s1 rest) as [o' f] eqn:Hrest. simpl in Hscan.
    injection Hscan as <- ->.
    destruct (IH _ _ _ Hrest)
      as (earlier & chosen & later & out1 & st1 & out2 & -> & He & Hc & ->).
    exists (release :: earlier), chosen, later, (o ++ out1), st1, out2.
    repeat split; [|exact Hc | apply app_assoc].
    rewrite (forRange_cons_continue _ _ _ _ _ _ Hb), He. reflexivity.
  - rewrite (forRange_cons_break _ _ _ _ _ _ Hb) in Hscan.
    injection Hscan as <- <-.
    exists [], release, rest, [], st, o. repeat split. exact Hb.
  - rewrite (forRange_cons_return _ _ _ _ _ _ _ Hb) in Hscan. discriminate.
Qed.

(** What a pass through the body that ends in [break] has checked. *)
Lemma body_Break_checked (st : state) (release : releaseJson) :
  match snd (bodyP st release) with
  | Break st' =>
      Prerelease release = false /\
      exists publishedAt,
        Parse (PublishedAt release) = Some publishedAt /\
        tooClose (lastReleasePublishDate st) publishedAt = false /\
        (Since now publishedAt <? 7 * 24 * Time.Hour) = false /\
        Contains (Body release) "Fix" = true /\
        (exists rows,
            crashReports (normalized release) = Decoded rows /\
            (countServers ∅ 0 rows >? 0) = false) /\
        latestStableRelease st' = Some release
  | _ => True
  end.
Proof.
  unfold tooClose, normalized.
  destruct st as [[u|] stable fallback last]; body_cases; try exact I;
    (split; [reflexivity|]); eexists; (split; [reflexivity|]);
    repeat split; eauto;
    match goal with
    | H : negb (Contains _ _) = false |- _ =>
        apply negb_false_iff in H; exact H
    end.
Qed.

Lemma body_Break_passesAll (st st' : state) (release : releaseJson)
    (out : list event) :
  bodyP st release = (out, Break st') ->
  passesAll now Parse crashReports (lastReleasePublishDate st) release
  /\ latestStableRelease st' = Some release.
Proof.
  intros Hb. pose proof (body_Break_checked st release) as Hchecked.
  rewrite Hb in Hchecked. cbn [snd] in Hchecked.
  destruct Hchecked
    as (Hpre & t & Hparse & Hclose & Hage & Hfix & (rows & Hrows & Hzero) & Hst).
  split; [|exact Hst].
  split; [exact Hpre|]. exists t. repeat split; try assumption.
  - rewrite (proj2 (Since_exact now t)) in Hage.
    apply Z.ltb_ge in Hage. exact Hage.
  - apply countServers_zero in Hzero. rewrite Hrows, Hzero. reflexivity.
Qed.

Lemma break_release_inv
    (releases : list releaseJson) (out : list event) (st : state) :
  scan init releases = (out, Break st) ->
  exists earlier chosen later last,
    releases = earlier ++ chosen :: later
    /\ latestStableRelease st = Some chosen
    /\ passesAll now Parse crashReports last chosen.
Proof.
  intros Hscan.
  destruct (scan_Break_inv _ _ _ _ Hscan)
    as (earlier & chosen & later & out1 & st1 & out2 & -> & He & Hc & _).
  destruct (body_Break_passesAll _ _ _ _ Hc) as [Hpass Hst].
  exists earlier, chosen, later, (lastReleasePublishDate st1). auto.
Qed.

(** When the loop is left by [break], the release it stopped at is in the
    feed and has passed every filter: it is not a prerelease, its date
    parses, is not within 3 days before the date of the release that is not
    a prerelease before it, and lies at least 7 days back, its body has
    [Fix], and the crash-report API returned no row for its tag without
    [v]; it is the stable release. *)
Theorem break_release_passed_filters
    (releases : list releaseJson) (out : list event) (st : state) :
  scan init releases = (out, Break st) ->
  exists earlier chosen later out1 st1,
    releases = earlier ++ chosen :: later
    /\ scan init earlier = (out1, Continue st1)
    /\ latestStableRelease st = Some chosen
    /\ passesAll now Parse crashReports (lastReleasePublishDate st1) chosen.
Proof.
  intros Hscan.
  destruct (scan_Break_inv _ _ _ _ Hscan)
    as (earlier & chosen & later & out1 & st1 & out2 & -> & He & Hc & _).
  destruct (body_Break_passesAll _ _ _ _ Hc) as [Hpass Hst].
  exists earlier, chosen, later, out1, st1. auto.
Qed.

End Chosen.

(** ** What the loop asks and what it remembers *)

Section Remembered.

Variable now : Time.t.
Variable Parse : string -> option Time.t.
Variable crashReports : string -> http_result (list errorCountJson).
Variable os_ok : os_call -> bool.

Local Abbreviation bodyP := (body now Parse crashReports).
Local Abbreviation scan := (forRange (body now Parse crashReports)).
Local Abbreviation runOn :=
  (fun releases => run now Parse (Decoded releases) crashReports os_ok).

(** The crash-report API is asked only about a release that has passed
    the filters before it: no request is made for a prerelease, for a
    release the spacing filter skips, for one younger than 7 days or for one
    without [Fix] in its body. *)
Theorem oracle_asked_only_after_filters
    (st : state) (release : releaseJson) :
  queries (fst (bodyP st release)) <> [] ->
  Prerelease release = false /\
  exists publishedAt,
    Parse (PublishedAt release) = Some publishedAt /\
    tooClose (lastReleasePublishDate st) publishedAt = false /\
    (Since now publishedAt <? 7 * 24 * Time.Hour) = false /\
    Contains (Body release) "Fix" = true.
Proof.
  unfold tooClose.
  destruct st as [[u|] stable fallback last]; body_cases;
    rewrite ?queries_app; cbn [queries app]; intros Hasked;
    try (exfalso; apply Hasked; reflexivity);
    (split; [reflexivity|]); eexists; (split; [reflexivity|]);
    repeat split; try assumption;
    match goal with
    | H : negb (Contains _ _) = false |- _ =>
        apply negb_false_iff in H; exact H
    end.
Qed.

(** The state after a release that is not a prerelease, when the loop goes
    on: its date is in [lastReleasePublishDate], whichever filter the release
    stopped at. *)
Lemma body_Continue_last (st : state) (release : releaseJson) :
  match snd (bodyP st release) with
  | Continue st' =>
      if Prerelease release then st' = st
      else Parse (PublishedAt release) = Some (lastReleasePublishDate st')
  | _ => True
  end.
Proof.
  destruct st as [[u|] stable fallback last]; body_cases;
    try exact I; reflexivity.
Qed.

Lemma scan_Continue_app (earlier later : list releaseJson) :
  forall st out st',
    scan st (earlier ++ later) = (out, Continue st') ->
    exists out1 st1 out2,
      scan st earlier = (out1, Continue st1)
      /\ scan st1 later = (out2, Continue st')
      /\ out = out1 ++ out2.
Proof.
  intros st out st' Hscan. rewrite forRange_app in Hscan.
  destruct (scan st earlier) as [out1 [st1|st1|st1 e]]; try discriminate.
  destruct (scan st1 later) as [out2 f] eqn:Hlater. simpl in Hscan.
  injection Hscan as <- ->. exists out1, st1, out2. auto.
Qed.

(** When the loop runs to the end of a feed, [lastReleasePublishDate] is
    the date of the last release of the feed that is not a prerelease,
    whether that release was skipped by the spacing filter, was too new,
    had no fix, or had crash reports. *)
Theorem last_date_is_last_non_prerelease
    (earlier prereleases : list releaseJson) (release : releaseJson)
    (publishedAt : Time.t) (st st' : state) (out : list event) :
  Prerelease release = false ->
  Parse (PublishedAt release) = Some publishedAt ->
  (forall p, In p prereleases -> Prerelease p = true) ->
  scan st (earlier ++ release :: prereleases) = (out, Continue st') ->
  lastReleasePublishDate st' = publishedAt.
Proof.
  intros Hpre Hparse Hall Hscan.
  destruct (scan_Continue_app _ _ _ _ _ Hscan)
    as (out1 & st1 & out2 & _ & Hrest & _).
  pose proof (body_Continue_last st1 release) as Hbody.
  destruct (bodyP st1 release) as [o [st2|st2|st2 e]] eqn:Hb.
  - rewrite (forRange_cons_continue _ _ _ _ _ _ Hb) in Hrest.
    rewrite (scan_prereleases now Parse crashReports _ st2 Hall) in Hrest.
    injection Hrest as _ <-. cbn [snd] in Hbody.
    rewrite Hpre, Hparse in Hbody. injection Hbody as ->. reflexivity.
  - rewrite (forRange_cons_break _ _ _ _ _ _ Hb) in Hrest. discriminate.
  - rewrite (forRange_cons_return _ _ _ _ _ _ _ Hb) in Hrest. discriminate.
Qed.

(** One release skipped by the spacing filter. *)
Lemma body_spacing_skip
    (st : state) (release : releaseJson) (publishedAt : Time.t) :
  Prerelease release = false ->
  Parse (PublishedAt release) = Some publishedAt ->
  tooClose (lastReleasePublishDate st) publishedAt = true ->
  exists st',
    bodyP st release
    = ([PrintTooClose (TagName release) (lastReleasePublishDate st)
          publishedAt], Continue st')
    /\ lastReleasePublishDate st' = publishedAt
    /\ fallbackRelease st' = fallbackRelease st
    /\ latestStableRelease st' = latestStableRelease st.
Proof.
  intros Hpre Hparse Hclose. unfold tooClose in Hclose.
  destruct st as [[u|] stable fallback last]; body_simpl;
    unfold body; rewrite Hpre, Hparse; body_simpl; rewrite Hclose;
    eexists; repeat split.
Qed.

(** A chain of releases each within 3 days before the one before it is
    skipped as a whole, however long the chain and however far its last
    release lies from its first: the loop goes through it without a request
    to the crash-report API and with [fallbackRelease] and
    [latestStableRelease] as they were. *)
Theorem close_chain_skipped (releases : list releaseJson) :
  forall st,
    closeChain Parse (lastReleasePublishDate st) releases = true ->
    exists out st',
      scan st releases = (out, Continue st')
      /\ queries out = []
      /\ fallbackRelease st' = fallbackRelease st
      /\ latestStableRelease st' = latestStableRelease st.
Proof.
  induction releases as [|release rest IH]; intros st Hchain.
  - exists [], st. repeat split.
  - cbn [closeChain] in Hchain.
    apply andb_true_iff in Hchain as [Hpre Hchain].
    apply negb_true_iff in Hpre.
    destruct (Parse (PublishedAt release)) as [t|] eqn:Hparse;
      [|discriminate].
    apply andb_true_iff in Hchain as [Hclose Hchain].
    destruct (body_spacing_skip st release t Hpre Hparse Hclose)
      as (st1 & Hb & Hlast & Hfallback & Hstable).
    rewrite <- Hlast in Hchain.
    destruct (IH st1 Hchain) as (out & st' & Hrest & Hq & Hf & Hs).
    exists ([PrintTooClose (TagName release) (lastReleasePublishDate st) t]
            ++ out), st'.
    rewrite (forRange_cons_continue _ _ _ _ _ _ Hb), Hrest.
    repeat split; [exact Hq | congruence | congruence].
Qed.

End Remembered.

Lemma oracle_asked_only_after_filters_witness :
  Contains (Body rStable) "Fix" = true.
Proof.
  destruct (oracle_asked_only_after_filters today RFC3339.ParseUTC noReports
              init rStable) as (_ & t & _ & _ & _ & Hfix).
  - vm_compute. discriminate.
  - exact Hfix.
Defined.

Lemma last_date_is_last_non_prerelease_witness :
  lastReleasePublishDate
    (stateOf (snd (forRange (body today RFC3339.ParseUTC noReports) init
                     ([rA; rB] ++ rC :: [rOldCandidate]))))
  = RFC3339.Date 2023 9 20 0 0 0.
Proof.
  eapply (last_date_is_last_non_prerelease today RFC3339.ParseUTC noReports
            [rA; rB] [rOldCandidate] rC _ init).
  - reflexivity.
  - reflexivity.
  - intros p [<- | []]. reflexivity.
  - reflexivity.
Defined.

Lemma close_chain_skipped_witness :
  exists out st',
    forRange (body today RFC3339.ParseUTC noReports)
      (mkState (Some rFresh) None None (RFC3339.Date 2023 10 25 0 0 0))
      [mkRelease "a" "v1" "2023-10-23T00:00:00Z" false "Fix";
       mkRelease "b" "v2" "2023-10-21T00:00:00Z" false "Fix";
       mkRelease "c" "v3" "2023-10-19T00:00:00Z" false "Fix";
       mkRelease "d" "v4" "2023-10-17T00:00:00Z" false "Fix"]
    = (out, Continue st')
    /\ queries out = [] /\ fallbackRelease st' = None
    /\ latestStableRelease st' = None.
Proof.
  apply (close_chain_skipped today RFC3339.ParseUTC noReports _
           (mkState (Some rFresh) None None (RFC3339.Date 2023 10 25 0 0 0))).
  reflexivity.
Defined.

Lemma break_release_passed_filters_witness :
  exists chosen last,
    latestStableRelease
      (stateOf (snd (forRange (body today RFC3339.ParseUTC noReports) init
                       [rA; rStable; rOlder]))) = Some chosen
    /\ passesAll today RFC3339.ParseUTC noReports last chosen.
Proof.
  destruct (break_release_passed_filters today RFC3339.ParseUTC noReports
              [rA; rStable; rOlder] _ _ eq_refl)
    as (earlier & chosen & later & out1 & st1 & _ & _ & Hst & Hpass).
  exists chosen, (lastReleasePublishDate st1). split; [exact Hst | exact Hpass].
Defined.

(** ** Errors, files and the exit status *)

Section Outcome.

Variable now : Time.t.
Variable Parse : string -> option Time.t.
Variable releasesResponse : http_result (list releaseJson).
Variable crashReports : string -> http_result (list errorCountJson).
Variable os_ok : os_call -> bool.

Local Abbreviation bodyP := (body now Parse crashReports).
Local Abbreviation scan := (forRange (body now Parse crashReports)).
Local Abbreviation runOn :=
  (fun releases => run now Parse (Decoded releases) crashReports os_ok).
Local Abbreviation runP :=
  (run now Parse releasesResponse crashReports os_ok).

(** The errors the loop returns. *)
Lemma body_Return_error (st : state) (release : releaseJson) :
  match snd (bodyP st release) with
  | Return _ e =>
      e = ErrParsePublishedAt \/ e = ErrGetErrorCount \/
      e = ErrDecodeErrorCount
  | _ => True
  end.
Proof. body_cases; auto. Qed.

Lemma scan_Return_error (releases : list releaseJson) :
  forall st out st' e,
    scan st releases = (out, Return st' e) ->
    e = ErrParsePublishedAt \/ e = ErrGetErrorCount \/ e = ErrDecodeErrorCount.
Proof.
  induction releases as [|release rest IH]; intros st out st' e Hscan;
    [discriminate|].
  pose proof (body_Return_error st release) as Hbody.
  destruct (bodyP st release) as [o [s1|s1|s1 e1]] eqn:Hb.
  - rewrite (forRange_cons_continue _ _ _ _ _ _ Hb) in Hscan.
    destruct (scan s1 rest) as [o' f] eqn:Hrest. simpl in Hscan.
    injection Hscan as _ ->. exact (IH _ _ _ _ Hrest).
  - rewrite (forRange_cons_break _ _ _ _ _ _ Hb) in Hscan. discriminate.
  - rewrite (forRange_cons_return _ _ _ _ _ _ _ Hb) in Hscan.
    injection Hscan as _ _ <-. exact Hbody.
Qed.

Lemma afterLoop_osCalls (st : state) :
  wellFormed st ->
  osCallsFor os_ok (snd (afterLoop os_ok st))
    (osCalls (fst (afterLoop os_ok st))).
Proof.
  unfold wellFormed, afterLoop. intros Hwf.
  destruct (latestUnstableRelease st) as [unstable|].
  - destruct (latestStableRelease st) as [stable|];
      [|destruct (fallbackRelease st) as [stable|]; [|reflexivity]];
      (destruct (os_ok (MkdirAll "bin")) eqn:Hmk; cbn [negb];
        [|split; [reflexivity | exact Hmk]]);
      (destruct (os_ok (WriteFile "bin/latest.txt" (TagName unstable)))
         eqn:Hlatest; cbn [negb];
        [|exists (TagName unstable); split; [reflexivity | exact Hlatest]]);
      (destruct (os_ok (WriteFile "bin/stable.txt" (TagName stable)))
         eqn:Hstable; cbn [negb]);
      exists (TagName unstable), (TagName stable); cbn;
      repeat split; auto.
  - destruct (Hwf eq_refl) as (-> & -> & _). reflexivity.
Qed.

(** The calls of package os and the outcome of [run] go together: on an
    error of the releases API, of the parser, of the crash-report API or on
    no releases found, [run] has called nothing of package os; the
    directory is made before any file is written; bin/stable.txt is written
    only after bin/latest.txt was written with success, so a failure on
    bin/stable.txt leaves the new bin/latest.txt in place; and [run] never
    dereferences a nil pointer. *)
Theorem run_os_calls_by_outcome :
  osCallsFor os_ok (snd runP) (osCalls (fst runP)).
Proof.
  unfold run, runWith, githubReleases.
  destruct releasesResponse as [| |releases]; try reflexivity.
  cbn [app]. unfold selectWith.
  pose proof (scan_wellFormed now Parse crashReports releases init
                (init_wellFormed)) as Hwf.
  pose proof (scan_osCalls now Parse crashReports releases init) as Hnone.
  destruct (scan init releases) as [out [st|st|st e]] eqn:Hscan;
    cbn [fst snd stateOf] in Hwf, Hnone.
  - pose proof (afterLoop_osCalls st Hwf) as Hafter.
    destruct (afterLoop os_ok st) as [out' o]. cbn [fst snd app osCalls] in *.
    rewrite osCalls_app, Hnone. exact Hafter.
  - pose proof (afterLoop_osCalls st Hwf) as Hafter.
    destruct (afterLoop os_ok st) as [out' o]. cbn [fst snd app osCalls] in *.
    rewrite osCalls_app, Hnone. exact Hafter.
  - cbn [fst snd osCalls]. rewrite Hnone.
    destruct (scan_Return_error _ _ _ _ _ Hscan) as [-> | [-> | ->]];
      reflexivity.
Qed.



End Outcome.

(** ** Oracle failures, the first release and prereleases *)

Section Feed.

Variable now : Time.t.
Variable Parse : string -> option Time.t.
Variable crashReports : string -> http_result (list errorCountJson).
Variable os_ok : os_call -> bool.

Local Abbreviation bodyP := (body now Parse crashReports).
Local Abbreviation scan := (forRange (body now Parse crashReports)).
Local Abbreviation runOn :=
  (fun releases => run now Parse (Decoded releases) crashReports os_ok).

Lemma body_oracle_error
    (st : state) (release : releaseJson) (publishedAt : Time.t) (e : error) :
  Prerelease release = false ->
  Parse (PublishedAt release) = Some publishedAt ->
  tooClose (lastReleasePublishDate st) publishedAt = false ->
  (Since now publishedAt <? 7 * 24 * Time.Hour) = false ->
  Contains (Body release) "Fix" = true ->
  snd (errorCount crashReports (normalized release)) = inl e ->
  exists out st',
    bodyP st release = (out, Return st' e)
    /\ queries out = [normalized release].
Proof.
  intros Hpre Hparse Hclose Hage Hfix Herr.
  unfold tooClose, normalized, errorCount in *. cbn [snd] in Herr.
  destruct st as [[u|] stable fallback last]; body_simpl;
    unfold body, errorCount; rewrite Hpre, Hparse; body_simpl;
    rewrite Hclose, Hage, Hfix; body_simpl;
    destruct (crashReports (ReplaceAll1 (TagName release) "v" ""));
    try discriminate Herr; injection Herr as <-;
    destruct (is_nil fallback && (Since now publishedAt >? 30 * 24 * Time.Hour));
    do 2 eexists; split; reflexivity.
Qed.

(** When the loop reaches a release that passes the filters before the
    oracle and the request to the crash-report API fails, or its answer
    does not decode, [run] returns that error: it tries no other release,
    does not fall back, and calls nothing of package os. *)
Theorem oracle_failure_aborts
    (earlier later : list releaseJson) (release : releaseJson)
    (out : list event) (st : state) (publishedAt : Time.t) (e : error) :
  scan init earlier = (out, Continue st) ->
  Prerelease release = false ->
  Parse (PublishedAt release) = Some publishedAt ->
  tooClose (lastReleasePublishDate st) publishedAt = false ->
  (Since now publishedAt <? 7 * 24 * Time.Hour) = false ->
  Contains (Body release) "Fix" = true ->
  snd (errorCount crashReports (normalized release)) = inl e ->
  snd (runOn (earlier ++ release :: later)) = Failed e
  /\ osCalls (fst (runOn (earlier ++ release :: later))) = []
  /\ queries (fst (runOn (earlier ++ release :: later)))
     = queries out ++ [normalized release].
Proof.
  intros Hearlier Hpre Hparse Hclose Hage Hfix Herr.
  destruct (body_oracle_error st release publishedAt e
              Hpre Hparse Hclose Hage Hfix Herr) as (out' & st' & Hb & Hq).
  assert (Hscan : scan init (earlier ++ release :: later)
                  = (out ++ out', Return st' e)).
  { rewrite forRange_app, Hearlier.
    rewrite (forRange_cons_return _ _ _ _ _ _ _ Hb). reflexivity. }
  pose proof (scan_osCalls now Parse crashReports
                (earlier ++ release :: later) init) as Hnone.
  rewrite Hscan in Hnone. cbn [fst] in Hnone.
  rewrite run_Decoded. unfold selectWith. rewrite Hscan. cbn [fst snd].
  repeat split.
  - exact Hnone.
  - cbn [queries]. rewrite queries_app, Hq. reflexivity.
Qed.

Lemma scan_fallback_kept (releases : list releaseJson) :
  forall st fallback,
    fallbackRelease st = Some fallback ->
    fallbackRelease (stateOf (snd (scan st releases))) = Some fallback.
Proof.
  induction releases as [|release rest IH]; intros st fallback Hset;
    [exact Hset|].
  pose proof (body_fallback_kept now Parse crashReports st release fallback
                Hset) as Hbody.
  destruct (bodyP st release) as [o [s1|s1|s1 e]] eqn:Hb.
  - rewrite (forRange_cons_continue _ _ _ _ _ _ Hb). apply IH, Hbody.
  - rewrite (forRange_cons_break _ _ _ _ _ _ Hb). exact Hbody.
  - rewrite (forRange_cons_return _ _ _ _ _ _ _ Hb). exact Hbody.
Qed.

Lemma body_first_old
    (st : state) (release : releaseJson) (publishedAt : Time.t) :
  lastReleasePublishDate st = Time.zero ->
  fallbackRelease st = None ->
  Prerelease release = false ->
  Parse (PublishedAt release) = Some publishedAt ->
  old now publishedAt = true ->
  fallbackRelease (stateOf (snd (bodyP st release))) = Some release.
Proof.
  unfold old. destruct st as [[u|] stable fallback last]; body_simpl;
    intros -> -> Hpre Hparse Hold;
    unfold body; rewrite Hpre, Hparse; body_simpl;
    change (Time.IsZero Time.zero) with true; body_simpl;
    rewrite Hold; body_simpl;
    repeat match goal with
      | |- context [if ?c then _ else _] => destruct c; body_simpl
      | |- context [match errorCount ?cr ?t with _ => _ end] =>
          destruct (errorCount cr t) as [? [?|?]]; body_simpl
      end; reflexivity.
Qed.

Lemma afterLoop_with_fallback (st : state) (fallback : releaseJson) :
  fallbackRelease st = Some fallback ->
  snd (afterLoop os_ok st) <> Failed ErrNoReleases.
Proof.
  unfold afterLoop. intros ->.
  destruct (latestStableRelease st) as [stable|];
    (destruct (negb (os_ok (MkdirAll "bin"))); [discriminate|]);
    (destruct (latestUnstableRelease st) as [unstable|]; [|discriminate]);
    (destruct (negb (os_ok (WriteFile "bin/latest.txt" (TagName unstable))));
      [discriminate|]);
    match goal with
    | |- context [if ?c then _ else _] => destruct c; discriminate
    end.
Qed.

(** When the first release of the feed that is not a prerelease is older
    than 30 days, it is both the unstable release and the fallback,
    whatever comes after it, and [run] does not return the error no
    releases found. *)
Theorem first_old_release_is_fallback
    (prereleases rest : list releaseJson) (release : releaseJson)
    (publishedAt : Time.t) :
  (forall p, In p prereleases -> Prerelease p = true) ->
  Prerelease release = false ->
  Parse (PublishedAt release) = Some publishedAt ->
  old now publishedAt = true ->
  fallbackRelease
    (stateOf (snd (scan init (prereleases ++ release :: rest)))) = Some release
  /\ latestUnstableRelease
       (stateOf (snd (scan init (prereleases ++ release :: rest))))
     = Some release
  /\ snd (runOn (prereleases ++ release :: rest)) <> Failed ErrNoReleases.
Proof.
  intros Hall Hpre Hparse Hold.
  pose proof (body_first_old init release publishedAt eq_refl eq_refl
                Hpre Hparse Hold) as Hfirst.
  assert (Hfallback :
            fallbackRelease
              (stateOf (snd (scan init (prereleases ++ release :: rest))))
            = Some release).
  { rewrite forRange_app.
    rewrite (scan_prereleases now Parse crashReports _ init Hall).
    destruct (bodyP init release) as [o [s1|s1|s1 e]] eqn:Hb.
    - rewrite (forRange_cons_continue _ _ _ _ _ _ Hb). cbn [fst snd].
      apply scan_fallback_kept, Hfirst.
    - rewrite (forRange_cons_break _ _ _ _ _ _ Hb). exact Hfirst.
    - rewrite (forRange_cons_return _ _ _ _ _ _ _ Hb). exact Hfirst. }
  split; [exact Hfallback|]. split.
  - rewrite (scan_unstable now Parse crashReports). cbn [init latestUnstableRelease].
    rewrite find_app_first.
    destruct (find nonPrerelease prereleases) as [p|] eqn:Hfind.
    + apply find_some in Hfind as [Hin Hnon]. unfold nonPrerelease in Hnon.
      rewrite (Hall _ Hin) in Hnon. discriminate.
    + cbn [find]. unfold nonPrerelease. rewrite Hpre. reflexivity.
  - rewrite run_Decoded. cbn [snd]. unfold selectWith.
    destruct (scan init (prereleases ++ release :: rest))
      as [out [st|st|st e]] eqn:Hscan; cbn [stateOf snd] in Hfallback.
    + pose proof (afterLoop_with_fallback st release Hfallback) as Hnot.
      destruct (afterLoop os_ok st) as [out' o]. exact Hnot.
    + pose proof (afterLoop_with_fallback st release Hfallback) as Hnot.
      destruct (afterLoop os_ok st) as [out' o]. exact Hnot.
    + cbn [snd].
      destruct (scan_Return_error now Parse crashReports _ _ _ _ _ Hscan)
        as [-> | [-> | ->]]; discriminate.
Qed.

End Feed.

Lemma oracle_failure_aborts_witness :
  snd (run today RFC3339.ParseUTC (Decoded ([rA] ++ rStable :: [rOlder]))
         downReports osFine) = Failed ErrGetErrorCount
  /\ osCalls (fst (run today RFC3339.ParseUTC
                     (Decoded ([rA] ++ rStable :: [rOlder]))
                     downReports osFine)) = [].
Proof.
  destruct (oracle_failure_aborts today RFC3339.ParseUTC downReports osFine
              [rA] [rOlder] rStable _ _ (RFC3339.Date 2023 9 1 12 0 0)
              ErrGetErrorCount eq_refl eq_refl eq_refl eq_refl eq_refl
              eq_refl eq_refl) as (Hfailed & Hos & _).
  split; [exact Hfailed | exact Hos].
Defined.

Lemma first_old_release_is_fallback_witness :
  snd (runAt ([rCandidate] ++ rC :: [rBad])) <> Failed ErrNoReleases.
Proof.
  apply (first_old_release_is_fallback today RFC3339.ParseUTC noReports osFine
           [rCandidate] [rBad] rC (RFC3339.Date 2023 9 20 0 0 0)).
  - intros p [<- | []]. reflexivity.
  - reflexivity.
  - reflexivity.
  - reflexivity.
Defined.

(** ** The tag written as stable, and feeds without their prereleases *)

Section Written.

Variable now : Time.t.
Variable Parse : string -> option Time.t.
Variable crashReports : string -> http_result (list errorCountJson).
Variable os_ok : os_call -> bool.

Local Abbreviation bodyP := (body now Parse crashReports).
Local Abbreviation scan := (forRange (body now Parse crashReports)).
Local Abbreviation runOn :=
  (fun releases => run now Parse (Decoded releases) crashReports os_ok).

(** Where a fallback comes from. *)
Lemma body_fallback_origin
    (st : state) (release fallback : releaseJson) :
  fallbackRelease (stateOf (snd (bodyP st release))) = Some fallback ->
  fallbackRelease st = Some fallback \/
  (fallback = release /\ Prerelease release = false /\
   exists publishedAt,
     Parse (PublishedAt release) = Some publishedAt /\
     (Since now publishedAt >? 30 * 24 * Time.Hour) = true).
Proof.
  destruct st as [[u|] stable [f|] last]; body_cases; intros Hset;
    try discriminate Hset; try (left; exact Hset);
    injection Hset as <-; right; repeat split;
    eexists; (split; [reflexivity | assumption]).
Qed.

Lemma scan_fallback_origin (releases : list releaseJson) :
  forall st fallback,
    fallbackRelease (stateOf (snd (scan st releases))) = Some fallback ->
    fallbackRelease st = Some fallback \/
    (In fallback releases /\ Prerelease fallback = false /\
     exists publishedAt,
       Parse (PublishedAt fallback) = Some publishedAt /\
       (Since now publishedAt >? 30 * 24 * Time.Hour) = true).
Proof.
  induction releases as [|release rest IH]; intros st fallback Hend;
    [left; exact Hend|].
  pose proof (body_fallback_origin st release fallback) as Hbody.
  assert (Hhere : forall s1,
             stateOf (snd (bodyP st release)) = s1 ->
             fallbackRelease s1 = Some fallback ->
             fallbackRelease st = Some fallback \/
             (In fallback (release :: rest) /\ Prerelease fallback = false /\
              exists publishedAt,
                Parse (PublishedAt fallback) = Some publishedAt /\
                (Since now publishedAt >? 30 * 24 * Time.Hour) = true)).
  { intros s1 <- Hs1.
    destruct (Hbody Hs1) as [Hkept | (-> & Hpre & Hold)];
      [left; exact Hkept | right; split; [left; reflexivity | auto]]. }
  destruct (bodyP st release) as [o [s1|s1|s1 e]] eqn:Hb.
  - rewrite (forRange_cons_continue _ _ _ _ _ _ Hb) in Hend.
    cbn [fst snd] in Hend.
    destruct (IH _ _ Hend) as [Hs1 | (Hin & Hrest)].
    + exact (Hhere s1 eq_refl Hs1).
    + right. split; [right; exact Hin | exact Hrest].
  - rewrite (forRange_cons_break _ _ _ _ _ _ Hb) in Hend.
    exact (Hhere s1 eq_refl Hend).
  - rewrite (forRange_cons_return _ _ _ _ _ _ _ Hb) in Hend.
    exact (Hhere s1 eq_refl Hend).
Qed.

(** When [run] returns nil, the tag it wrote to bin/stable.txt is the tag
    of a release of the feed that is not a prerelease and whose date parses
    and lies at least 7 days back, be it the release the loop stopped at or
    the fallback; and the tag in bin/latest.txt is the tag of the first
    release of the feed that is not a prerelease. *)
Theorem stable_tag_of_settled_release (releases : list releaseJson) :
  snd (runOn releases) = Done ->
  exists unstable stable publishedAt,
    osCalls (fst (runOn releases))
    = [MkdirAll "bin"; WriteFile "bin/latest.txt" (TagName unstable);
       WriteFile "bin/stable.txt" (TagName stable)]
    /\ find nonPrerelease releases = Some unstable
    /\ In stable releases
    /\ Prerelease stable = false
    /\ Parse (PublishedAt stable) = Some publishedAt
    /\ 7 * 24 * Time.Hour <= now - publishedAt.
Proof.
  cbv beta. rewrite run_Decoded. cbn [fst snd]. intros Hdone.
  destruct (selectWith_Done _ _ _ _ _ Hdone)
    as (out & out' & st & Hloop & Hafter & Hselect).
  destruct (afterLoop_Done _ _ _ Hafter) as (unstable & stable & Hu & Hs & Hos).
  pose proof (scan_unstable now Parse crashReports releases init) as Hfirst.
  pose proof (scan_osCalls now Parse crashReports releases init) as Hnone.
  assert (Hst : stateOf (snd (scan init releases)) = st)
    by (destruct Hloop as [-> | ->]; reflexivity).
  assert (Hout : fst (scan init releases) = out)
    by (destruct Hloop as [-> | ->]; reflexivity).
  rewrite Hst in Hfirst. rewrite Hout in Hnone. cbn in Hfirst.
  assert (Hsettled :
            In stable releases /\ Prerelease stable = false /\
            exists publishedAt,
              Parse (PublishedAt stable) = Some publishedAt /\
              7 * 24 * Time.Hour <= now - publishedAt).
  { destruct Hs as [Hstable | [Hnostable Hfallback]].
    - destruct Hloop as [Hloop | Hloop].
      + pose proof (scan_Continue_stable now Parse crashReports _ _ _ _ Hloop)
          as Hnil. cbn in Hnil. congruence.
      + destruct (break_release_inv now Parse crashReports _ _ _ Hloop)
          as (earlier & chosen & later & last & -> & Hchosen & Hpass).
        assert (chosen = stable) as -> by congruence.
        destruct Hpass as (Hpre & t & Hparse & _ & Hage & _).
        split; [apply in_elt|]. split; [exact Hpre|].
        exists t. split; [exact Hparse | exact Hage].
    - rewrite <- Hst in Hfallback.
      destruct (scan_fallback_origin _ _ _ Hfallback)
        as [Hinit | (Hin & Hpre & t & Hparse & Hold)]; [discriminate|].
      split; [exact Hin|]. split; [exact Hpre|].
      exists t. split; [exact Hparse|].
      rewrite (proj1 (Since_exact now t)) in Hold.
      apply Z.gtb_lt in Hold.
      change (7 * 24 * Time.Hour) with 604800000000000.
      change (30 * 24 * Time.Hour) with 2592000000000000 in Hold. lia. }
  destruct Hsettled as (Hin & Hpre & t & Hparse & Hage).
  exists unstable, stable, t. rewrite Hselect. cbn [fst osCalls].
  rewrite osCalls_app, Hnone, Hos.
  repeat split; try assumption. rewrite <- Hfirst. exact Hu.
Qed.

End Written.

Lemma stable_tag_of_settled_release_witness :
  exists unstable stable publishedAt,
    osCalls (fst (runAt [rA; rB; rC]))
    = [MkdirAll "bin"; WriteFile "bin/latest.txt" (TagName unstable);
       WriteFile "bin/stable.txt" (TagName stable)]
    /\ In stable [rA; rB; rC]
    /\ RFC3339.ParseUTC (PublishedAt stable) = Some publishedAt
    /\ 7 * 24 * Time.Hour <= today - publishedAt.
Proof.
  destruct (stable_tag_of_settled_release today RFC3339.ParseUTC noReports
              osFine [rA; rB; rC] eq_refl)
    as (unstable & stable & t & Hos & _ & Hin & _ & Hparse & Hage).
  exists unstable, stable, t. auto.
Defined.

Section Prereleases.

Variable now : Time.t.
Variable Parse : string -> option Time.t.
Variable crashReports : string -> http_result (list errorCountJson).
Variable os_ok : os_call -> bool.

Local Abbreviation bodyP := (body now Parse crashReports).
Local Abbreviation scan := (forRange (body now Parse crashReports)).
Local Abbreviation runOn :=
  (fun releases => run now Parse (Decoded releases) crashReports os_ok).
Local Abbreviation quiet :=
  (List.filter (fun e => negb (printsPrerelease e))).

Lemma body_quiet (st : state) (release : releaseJson) :
  Prerelease release = false ->
  quiet (fst (bodyP st release)) = fst (bodyP st release).
Proof.
  intros Hpre. unfold body. rewrite Hpre.
  body_cases; cbn [app List.filter negb printsPrerelease]; reflexivity.
Qed.

Lemma afterLoop_quiet (st : state) :
  quiet (fst (afterLoop os_ok st)) = fst (afterLoop os_ok st).
Proof.
  unfold afterLoop.
  destruct (latestStableRelease st) as [stable|];
    [|destruct (fallbackRelease st) as [stable|]; [|reflexivity]];
    (destruct (negb (os_ok (MkdirAll "bin"))); [reflexivity|]);
    (destruct (latestUnstableRelease st) as [unstable|]; [|reflexivity]);
    (destruct (negb (os_ok (WriteFile "bin/latest.txt" (TagName unstable))));
      [reflexivity|]);
    match goal with
    | |- context [if ?c then _ else _] => destruct c; reflexivity
    end.
Qed.

Lemma scan_without_prereleases (releases : list releaseJson) :
  forall st,
    scan st (List.filter nonPrerelease releases)
    = (quiet (fst (scan st releases)), snd (scan st releases)).
Proof.
  induction releases as [|release rest IH]; intros st; [reflexivity|].
  cbn [List.filter]. unfold nonPrerelease at 1.
  destruct (Prerelease release) eqn:Hpre; cbn [negb].
  - rewrite (forRange_cons_continue _ _ _ _ _ _
               (body_prerelease now Parse crashReports st release Hpre)).
    cbn [fst snd app List.filter printsPrerelease negb]. apply IH.
  - pose proof (body_quiet st release Hpre) as Hquiet.
    destruct (bodyP st release) as [o [s1|s1|s1 e]] eqn:Hb;
      cbn [fst] in Hquiet.
    + rewrite !(forRange_cons_continue _ _ _ _ _ _ Hb), IH.
      cbn [fst snd]. rewrite List.filter_app, Hquiet. reflexivity.
    + rewrite !(forRange_cons_break _ _ _ _ _ _ Hb).
      cbn [fst snd]. rewrite Hquiet. reflexivity.
    + rewrite !(forRange_cons_return _ _ _ _ _ _ _ Hb).
      cbn [fst snd]. rewrite Hquiet. reflexivity.
Qed.

(** Prereleases only add their line to what [run] prints: on the feed
    without its prereleases [run] ends the same way, asks the crash-report
    API the same, writes the same files and prints the same lines but the
    ones that say a prerelease was skipped. *)
Theorem prereleases_only_print (releases : list releaseJson) :
  runOn (List.filter nonPrerelease releases)
  = (quiet (fst (runOn releases)), snd (runOn releases)).
Proof.
  cbv beta. rewrite !run_Decoded. unfold selectWith.
  rewrite scan_without_prereleases.
  destruct (scan init releases) as [out [st|st|st e]]; cbn [fst snd];
    try reflexivity;
    pose proof (afterLoop_quiet st) as Hquiet;
    destruct (afterLoop os_ok st) as [out' o]; cbn [fst snd] in *;
    cbn [List.filter printsPrerelease negb];
    rewrite List.filter_app, Hquiet; reflexivity.
Qed.

End Prereleases.

Lemma ReplaceAll1_removes_witness :
  ReplaceAll1 "v22.26.0-dev" "v" "" = "22.26.0-de"
  /\ ~ In "v"%char (list_ascii_of_string (ReplaceAll1 "v22.26.0-dev" "v" "")).
Proof.
  split; [reflexivity|].
  apply (ReplaceAll1_removes "v22.26.0-dev" "v").
Defined.
